(** * PG Palace listing form: validation, handlers and progress tracker

    A shallow embedding of the two units of the repository,
    [PGListingForm] (state, change handlers, [validateForm],
    [handleSubmit]) and [ProgressTracker] (percentage and step markers),
    together with the JavaScript primitives they rely on: strings as
    sequences of UTF-16 code units, numbers as IEEE 754 binary64 values,
    [Number] applied to a string, [Math.round], and the two anchored
    regular expressions used by the validation. *)

From Stdlib Require Import ZArith NArith List Bool String Ascii Lia.
From Stdlib Require Import SpecFloat.
From stdpp Require Import base option list gmap strings.

Local Open Scope Z_scope.

(* ===================================================================== *)
(** * JavaScript values                                                   *)
(* ===================================================================== *)

Module JS.

(** A JavaScript string is a sequence of UTF-16 code units. *)
Definition jsstring := list N.

(** Source literals are ASCII; [js] gives their code units. *)
Definition js (s : string) : jsstring :=
  List.map N_of_ascii (list_ascii_of_string s).

(** Truthiness of a string value: only the empty string is falsy. *)
Definition truthy (s : jsstring) : bool :=
  match s with
  | [] => false
  | _ :: _ => true
  end.

(** The class [\s] of regular expressions, which is also the set of
    characters [Number] strips: WhiteSpace and LineTerminator. *)
Definition is_space (c : N) : bool :=
  ((9 <=? c) && (c <=? 13) || (c =? 32) || (c =? 160) || (c =? 5760)
   || (8192 <=? c) && (c <=? 8202) || (c =? 8232) || (c =? 8233)
   || (c =? 8239) || (c =? 8287) || (c =? 12288) || (c =? 65279))%N.

(** The class [\d]: the ten ASCII digits. *)
Definition is_digit (c : N) : bool := ((48 <=? c) && (c <=? 57))%N.

Definition AT : N := 64.   (* '@' *)
Definition DOT : N := 46.  (* '.' *)

(** ** Numbers: IEEE 754 binary64 *)

Definition prec : Z := 53.
Definition emax : Z := 1024.

Definition number := spec_float.

Definition NaN : number := S754_nan.

(** The double nearest to an integer (exact below 2^53). *)
Definition of_Z (z : Z) : number := binary_normalize prec emax z 0 false.

Definition div (x y : number) : number := SFdiv prec emax x y.
Definition mul (x y : number) : number := SFmul prec emax x y.
Definition lt (x y : number) : bool := SFltb x y.
Definition gt (x y : number) : bool := SFltb y x.
Definition strict_eq (x y : number) : bool := SFeqb x y.

(** [Math.round x]: the integer nearest to [x], ties towards +infinity;
    a result of zero keeps the sign of [x]; NaN, infinities and zeros
    are returned unchanged. *)
Definition Math_round (x : number) : number :=
  match x with
  | S754_finite s m e =>
      if 0 <=? e then x
      else
        let v := if s then Z.neg m else Z.pos m in
        binary_normalize prec emax
          ((2 * v + 2 ^ (- e)) / 2 ^ (- e + 1)) 0 s
  | _ => x
  end.

(** ** [Number(string)] (StringToNumber) *)

Fixpoint drop_space (s : jsstring) : jsstring :=
  match s with
  | c :: s' => if is_space c then drop_space s' else s
  | [] => []
  end.

Definition trim (s : jsstring) : jsstring :=
  rev (drop_space (rev (drop_space s))).

Definition digit_value (base : N) (c : N) : option N :=
  let v :=
    if ((48 <=? c) && (c <=? 57))%N then Some (c - 48)%N
    else if ((97 <=? c) && (c <=? 102))%N then Some (c - 87)%N
    else if ((65 <=? c) && (c <=? 70))%N then Some (c - 55)%N
    else None in
  match v with
  | Some d => if (d <? base)%N then Some d else None
  | None => None
  end.

(** Longest prefix of digits in [base], as (number of digits, value, rest). *)
Fixpoint span_digits (base : N) (s : jsstring) (n : nat) (acc : N)
  : nat * N * jsstring :=
  match s with
  | c :: s' =>
      match digit_value base c with
      | Some d => span_digits base s' (S n) (acc * base + d)%N
      | None => (n, acc, s)
      end
  | [] => (n, acc, [])
  end.

(** The double nearest to [(-1)^neg * m * 10^e], ties to even; a zero
    mantissa gives the zero of that sign. *)
Definition round_decimal (neg : bool) (m : N) (e : Z) : number :=
  match m with
  | N0 => S754_zero neg
  | Npos p =>
      if 0 <=? e then
        binary_normalize prec emax
          ((if neg then Z.neg p else Z.pos p) * 10 ^ e) 0 neg
      else
        let '(mz, ez, lz) :=
          SFdiv_core_binary prec emax (Z.pos p) 0 (10 ^ (- e)) 0 in
        binary_round_aux prec emax neg mz ez lz
  end.

(** ExponentPart: nothing, or [e]/[E], an optional sign and digits. *)
Definition parse_exponent (s : jsstring) : option Z :=
  match s with
  | [] => Some 0
  | c :: s' =>
      if ((c =? 101) || (c =? 69))%N then
        let '(neg, s'') :=
          match s' with
          | 45%N :: r => (true, r)
          | 43%N :: r => (false, r)
          | _ => (false, s')
          end in
        match span_digits 10 s'' 0 0 with
        | (S _, v, []) => Some (if neg then - Z.of_N v else Z.of_N v)
        | _ => None
        end
      else None
  end.

(** StrUnsignedDecimalLiteral other than [Infinity]: digits with an
    optional fraction and exponent, at least one digit before the
    exponent. *)
Definition parse_unsigned_decimal (neg : bool) (s : jsstring) : number :=
  let '(ni, vi, r1) := span_digits 10 s 0 0 in
  let '(nf, v, r2) :=
    match r1 with
    | 46%N :: r => span_digits 10 r 0 vi
    | _ => (O, vi, r1)
    end in
  match (ni + nf)%nat with
  | O => NaN
  | S _ =>
      match parse_exponent r2 with
      | Some ex => round_decimal neg v (ex - Z.of_nat nf)
      | None => NaN
      end
  end.

Definition Infinity_text : jsstring := js "Infinity".

Definition parse_decimal (neg : bool) (s : jsstring) : number :=
  if decide (s = Infinity_text) then S754_infinity neg
  else parse_unsigned_decimal neg s.

(** NonDecimalIntegerLiteral: [0x], [0o] or [0b] and digits, unsigned. *)
Definition parse_radix (base : N) (s : jsstring) : number :=
  match span_digits base s 0 0 with
  | (S _, v, []) => of_Z (Z.of_N v)
  | _ => NaN
  end.

(** [Number(s)] for a string [s]. *)
Definition Number (s : jsstring) : number :=
  match trim s with
  | [] => S754_zero false
  | 45%N :: r => parse_decimal true r
  | 43%N :: r => parse_decimal false r
  | 48%N :: c :: r =>
      if ((c =? 120) || (c =? 88))%N then parse_radix 16 r
      else if ((c =? 111) || (c =? 79))%N then parse_radix 8 r
      else if ((c =? 98) || (c =? 66))%N then parse_radix 2 r
      else parse_decimal false (48%N :: c :: r)
  | t => parse_decimal false t
  end.

(** ** Rounding records *)

(** [mrs] records where the rational [A / D] lies above the integer
    [shr_m mrs]: exactly on it, below, at or above the midpoint to the
    next integer. *)
Definition locates (A D : Z) (mrs : shr_record) : Prop :=
  0 < D /\ 0 <= shr_m mrs /\
  let x := A - shr_m mrs * D in
  match shr_r mrs, shr_s mrs with
  | false, false => x = 0
  | false, true => 0 < x /\ 2 * x < D
  | true, false => 2 * x = D
  | true, true => D < 2 * x /\ x < D
  end.

End JS.

(* ===================================================================== *)
(** * Regular expressions                                                 *)
(* ===================================================================== *)

Module RegExp.
Import JS.

(** The fragment of pattern syntax the form uses: character classes,
    concatenation, [+] and [{n}].  Both patterns of the source are
    written between [^] and [$] without flags, so [test] succeeds
    exactly when the whole string matches the body. *)
Inductive regex : Type :=
| Void : regex
| Eps : regex
| Class : (N -> bool) -> regex
| Cat : regex -> regex -> regex
| Alt : regex -> regex -> regex
| Star : regex -> regex.

Definition Plus (r : regex) : regex := Cat r (Star r).

Fixpoint Repeat (n : nat) (r : regex) : regex :=
  match n with
  | O => Eps
  | S n' => Cat r (Repeat n' r)
  end.

Definition Char (c : N) : regex := Class (N.eqb c).

Fixpoint nullable (r : regex) : bool :=
  match r with
  | Void => false
  | Eps => true
  | Class _ => false
  | Cat r1 r2 => nullable r1 && nullable r2
  | Alt r1 r2 => nullable r1 || nullable r2
  | Star _ => true
  end.

(** Derivative of [r] by the code unit [c]. *)
Fixpoint deriv (c : N) (r : regex) : regex :=
  match r with
  | Void => Void
  | Eps => Void
  | Class p => if p c then Eps else Void
  | Cat r1 r2 =>
      if nullable r1 then Alt (Cat (deriv c r1) r2) (deriv c r2)
      else Cat (deriv c r1) r2
  | Alt r1 r2 => Alt (deriv c r1) (deriv c r2)
  | Star r1 => Cat (deriv c r1) (Star r1)
  end.

(** [/^r$/.test(s)] *)
Fixpoint test (r : regex) (s : jsstring) : bool :=
  match s with
  | [] => nullable r
  | c :: s' => test (deriv c r) s'
  end.

(** The language of a pattern, for stating what [test] accepts. *)
Inductive Matches : regex -> jsstring -> Prop :=
| MEps : Matches Eps []
| MClass p c : p c = true -> Matches (Class p) [c]
| MCat r1 r2 s1 s2 :
    Matches r1 s1 -> Matches r2 s2 -> Matches (Cat r1 r2) (s1 ++ s2)
| MAltL r1 r2 s : Matches r1 s -> Matches (Alt r1 r2) s
| MAltR r1 r2 s : Matches r2 s -> Matches (Alt r1 r2) s
| MStar0 r : Matches (Star r) []
| MStarS r s1 s2 :
    Matches r s1 -> Matches (Star r) s2 -> Matches (Star r) (s1 ++ s2).

End RegExp.

(* ===================================================================== *)
(** * The listing form                                                    *)
(* ===================================================================== *)

Module PGListingForm.
Import JS RegExp.

(** An entry of a [FileList]. *)
Record File : Type := mkFile {
  file_name : string;
  file_bytes : list Byte.byte
}.

(** A call of [toast]. *)
Record Toast : Type := mkToast {
  title : string;
  description : string;
  variant : option string
}.

(** [FormData].  [sharingPrices] and [amenities] are objects indexed by
    computed property names, kept as finite maps; [null] is [None]. *)
Record FormData : Type := mkFormData {
  pgName : jsstring;
  address : jsstring;
  googleMapsLink : jsstring;
  pgType : jsstring;
  preferredTenants : jsstring;
  ownerName : jsstring;
  primaryMobile : jsstring;
  secondaryMobile : jsstring;
  whatsappNumber : jsstring;
  email : jsstring;
  sharingPrices : gmap string (option number);
  deposit : jsstring;
  refundPolicy : jsstring;
  noticePeriod : jsstring;
  amenities : gmap string bool;
  bathroomType : jsstring;
  otherAmenities : jsstring;
  images : option (list File);
  videoLink : jsstring
}.

Definition sharing_keys : list string := ["1"; "2"; "3"; "4"; "5"]%string.

Definition amenity_names : list string :=
  ["wifi"; "washingMachine"; "biometric"; "ac"; "gym"; "powerBackup";
   "geyser"; "roWater"; "parking"; "housekeeping"]%string.

(** The argument of [useState<FormData>]. *)
Definition initialFormData : FormData := {|
  pgName := [];
  address := [];
  googleMapsLink := [];
  pgType := js "co-living";
  preferredTenants := js "anyone";
  ownerName := [];
  primaryMobile := [];
  secondaryMobile := [];
  whatsappNumber := [];
  email := [];
  sharingPrices :=
    list_to_map (List.map (fun k => (k, @None number)) sharing_keys);
  deposit := [];
  refundPolicy := [];
  noticePeriod := [];
  amenities := list_to_map (List.map (fun k => (k, false)) amenity_names);
  bathroomType := js "attached";
  otherAmenities := [];
  images := None;
  videoLink := []
|}.

(** The [name] attributes of the text inputs and text areas that
    register [handleInputChange]. *)
Inductive InputName : Type :=
| NpgName | Naddress | NgoogleMapsLink | NownerName | NprimaryMobile
| NsecondaryMobile | NwhatsappNumber | Nemail | Ndeposit | NrefundPolicy
| NnoticePeriod | NotherAmenities | NvideoLink.

(** The names passed to [handleRadioChange]. *)
Inductive RadioName : Type := NpgType | NpreferredTenants | NbathroomType.

(** [{ ...prev, [name]: value }] for a text input. *)
Definition set_input (prev : FormData) (name : InputName) (value : jsstring)
  : FormData :=
  let 'mkFormData a b c d e f g h i j k l m n o p q r s := prev in
  match name with
  | NpgName => mkFormData value b c d e f g h i j k l m n o p q r s
  | Naddress => mkFormData a value c d e f g h i j k l m n o p q r s
  | NgoogleMapsLink => mkFormData a b value d e f g h i j k l m n o p q r s
  | NownerName => mkFormData a b c d e value g h i j k l m n o p q r s
  | NprimaryMobile => mkFormData a b c d e f value h i j k l m n o p q r s
  | NsecondaryMobile => mkFormData a b c d e f g value i j k l m n o p q r s
  | NwhatsappNumber => mkFormData a b c d e f g h value j k l m n o p q r s
  | Nemail => mkFormData a b c d e f g h i value k l m n o p q r s
  | Ndeposit => mkFormData a b c d e f g h i j k value m n o p q r s
  | NrefundPolicy => mkFormData a b c d e f g h i j k l value n o p q r s
  | NnoticePeriod => mkFormData a b c d e f g h i j k l m value o p q r s
  | NotherAmenities => mkFormData a b c d e f g h i j k l m n o p value r s
  | NvideoLink => mkFormData a b c d e f g h i j k l m n o p q r value
  end.

(** [{ ...prev, [name]: value }] for a radio group. *)
Definition set_radio (prev : FormData) (name : RadioName) (value : jsstring)
  : FormData :=
  let 'mkFormData a b c d e f g h i j k l m n o p q r s := prev in
  match name with
  | NpgType => mkFormData a b c value e f g h i j k l m n o p q r s
  | NpreferredTenants => mkFormData a b c d value f g h i j k l m n o p q r s
  | NbathroomType => mkFormData a b c d e f g h i j k l m n o value q r s
  end.

Definition set_amenities (prev : FormData) (v : gmap string bool) : FormData :=
  let 'mkFormData a b c d e f g h i j k l m n _ p q r s := prev in
  mkFormData a b c d e f g h i j k l m n v p q r s.

Definition set_sharingPrices (prev : FormData)
  (v : gmap string (option number)) : FormData :=
  let 'mkFormData a b c d e f g h i j _ l m n o p q r s := prev in
  mkFormData a b c d e f g h i j v l m n o p q r s.

Definition set_images (prev : FormData) (v : option (list File)) : FormData :=
  let 'mkFormData a b c d e f g h i j k l m n o p q _ s := prev in
  mkFormData a b c d e f g h i j k l m n o p q v s.

(** The component: the two [useState] cells and the effects it performs
    on its collaborators, in order ([toast] calls, [window.scrollTo]
    calls, [console.log] payloads). *)
Record State : Type := mkState {
  formData : FormData;
  showPreview : bool;
  toasts : list Toast;
  scrolls : list (Z * Z);
  logged : list FormData
}.

Definition initialState : State := mkState initialFormData false [] [] [].

Definition setFormData (f : FormData -> FormData) (st : State) : State :=
  mkState (f (formData st)) (showPreview st) (toasts st) (scrolls st)
    (logged st).

Definition setShowPreview (b : bool) (st : State) : State :=
  mkState (formData st) b (toasts st) (scrolls st) (logged st).

Definition toast (t : Toast) (st : State) : State :=
  mkState (formData st) (showPreview st) (toasts st ++ [t]) (scrolls st)
    (logged st).

Definition scrollTo (x y : Z) (st : State) : State :=
  mkState (formData st) (showPreview st) (toasts st) (scrolls st ++ [(x, y)])
    (logged st).

Definition console_log (st : State) : State :=
  mkState (formData st) (showPreview st) (toasts st) (scrolls st)
    (logged st ++ [formData st]).

Definition handleInputChange (name : InputName) (value : jsstring)
  : State -> State :=
  setFormData (fun prev => set_input prev name value).

Definition handleRadioChange (name : RadioName) (value : jsstring)
  : State -> State :=
  setFormData (fun prev => set_radio prev name value).

(** The property names a plain object inherits from [Object.prototype]:
    reading one of them yields a function (the prototype itself for
    [__proto__]), which is truthy. *)
Definition Object_prototype_names : list string :=
  ["constructor"; "hasOwnProperty"; "isPrototypeOf"; "propertyIsEnumerable";
   "toLocaleString"; "toString"; "valueOf"; "__proto__";
   "__defineGetter__"; "__defineSetter__"; "__lookupGetter__";
   "__lookupSetter__"]%string.

(** The truthiness of [o[name]] for a name that is not an own property
    of [o]: an inherited value is truthy, [undefined] is not. *)
Definition inherited (name : string) : bool :=
  bool_decide (name ∈ Object_prototype_names).

(** [!prev.amenities[name]]: an own property gives its flag; otherwise
    the read goes to the prototype. *)
Definition handleCheckboxChange (name : string) : State -> State :=
  setFormData (fun prev =>
    set_amenities prev
      (<[name := negb (default (inherited name) (amenities prev !! name))]>
         (amenities prev))).

Definition handleSharingPriceChange (key : string) (value : jsstring)
  : State -> State :=
  let numValue :=
    match value with
    | [] => None
    | _ :: _ => Some (Number value)
    end in
  setFormData (fun prev =>
    set_sharingPrices prev (<[key := numValue]> (sharingPrices prev))).

Definition imageUploadError : Toast :=
  mkToast "Image Upload Error" "Please select between 1 and 10 images."
    (Some "destructive"%string).

(** [files] is [e.target.files], a [FileList] or [null]. *)
Definition handleImageChange (files : option (list File)) : State -> State :=
  match files with
  | Some fl =>
      if (0 <? length fl)%nat && (length fl <=? 10)%nat
      then setFormData (fun prev => set_images prev (Some fl))
      else toast imageUploadError
  | None => toast imageUploadError
  end.


(** ** Validation *)

(** What a property read [formData[field]] yields, as far as its
    truthiness goes. *)
Inductive value : Type :=
| VString : jsstring -> value
| VObject : value
| VNull : value
| VUndefined : value.

Definition to_boolean (v : value) : bool :=
  match v with
  | VString s => truthy s
  | VObject => true
  | VNull | VUndefined => false
  end.

Definition properties (fd : FormData) : list (string * value) :=
  [("pgName", VString (pgName fd));
   ("address", VString (address fd));
   ("googleMapsLink", VString (googleMapsLink fd));
   ("pgType", VString (pgType fd));
   ("preferredTenants", VString (preferredTenants fd));
   ("ownerName", VString (ownerName fd));
   ("primaryMobile", VString (primaryMobile fd));
   ("secondaryMobile", VString (secondaryMobile fd));
   ("whatsappNumber", VString (whatsappNumber fd));
   ("email", VString (email fd));
   ("sharingPrices", VObject);
   ("deposit", VString (deposit fd));
   ("refundPolicy", VString (refundPolicy fd));
   ("noticePeriod", VString (noticePeriod fd));
   ("amenities", VObject);
   ("bathroomType", VString (bathroomType fd));
   ("otherAmenities", VString (otherAmenities fd));
   ("images", match images fd with Some _ => VObject | None => VNull end);
   ("videoLink", VString (videoLink fd))]%string.

Fixpoint assoc (k : string) (l : list (string * value)) : value :=
  match l with
  | [] => VUndefined
  | (k', v) :: l' => if String.eqb k k' then v else assoc k l'
  end.

(** [formData[field]] *)
Definition get (fd : FormData) (field : string) : value :=
  assoc field (properties fd).

Definition is_upper (a : ascii) : bool :=
  ((65 <=? N_of_ascii a) && (N_of_ascii a <=? 90))%N.

Definition is_lower (a : ascii) : bool :=
  ((97 <=? N_of_ascii a) && (N_of_ascii a <=? 122))%N.

(** [.replace(/([A-Z])/g, ' $1')] *)
Fixpoint space_capitals (s : string) : string :=
  match s with
  | EmptyString => EmptyString
  | String a s' =>
      if is_upper a then String " " (String a (space_capitals s'))
      else String a (space_capitals s')
  end.

(** [.replace(/^./, str => str.toUpperCase())] on an identifier. *)
Definition capitalize (s : string) : string :=
  match s with
  | EmptyString => EmptyString
  | String a s' =>
      String (if is_lower a then ascii_of_N (N_of_ascii a - 32) else a) s'
  end.

Definition field_label (field : string) : string :=
  capitalize (space_capitals field).

Definition validationError (msg : string) : Toast :=
  mkToast "Validation Error" msg (Some "destructive"%string).

Definition requiredFields : list string :=
  ["pgName"; "address"; "ownerName"; "primaryMobile"; "email"]%string.

(** The [for ... of requiredFields] loop; [Some t] is the toast shown
    before [return false]. *)
Fixpoint check_required (fd : FormData) (fields : list string)
  : option Toast :=
  match fields with
  | [] => None
  | field :: rest =>
      if negb (to_boolean (get fd field))
      then Some (validationError (field_label field ++ " is required"))
      else check_required fd rest
  end.

(** [/^\d{10}$/] *)
Definition mobileRegex : regex := Repeat 10 (Class is_digit).

Definition not_space_at (c : N) : bool :=
  negb (is_space c || (c =? AT)%N).

(** [/^[^\s@]+@[^\s@]+\.[^\s@]+$/] *)
Definition emailRegex : regex :=
  Cat (Plus (Class not_space_at))
    (Cat (Char AT)
       (Cat (Plus (Class not_space_at))
          (Cat (Char DOT) (Plus (Class not_space_at))))).

(** [Object.values(o)]; the order plays no role for [some]. *)
Definition Object_values {A} (o : gmap string A) : list A :=
  (map_to_list o).*2.

(** [price !== null && price > 0] *)
Definition positive_price (price : option number) : bool :=
  match price with
  | Some p => gt p (S754_zero false)
  | None => false
  end.

Definition hasPrice (fd : FormData) : bool :=
  existsb positive_price (Object_values (sharingPrices fd)).

(** [!formData.images || formData.images.length === 0] *)
Definition no_images (fd : FormData) : bool :=
  match images fd with
  | None => true
  | Some fl => (length fl =? 0)%nat
  end.

Definition validateForm (st : State) : bool * State :=
  let fd := formData st in
  match check_required fd requiredFields with
  | Some t => (false, toast t st)
  | None =>
      if negb (test mobileRegex (primaryMobile fd)) then
        (false,
         toast (validationError "Primary mobile number must be 10 digits") st)
      else if negb (test emailRegex (email fd)) then
        (false,
         toast (validationError "Please enter a valid email address") st)
      else if negb (hasPrice fd) then
        (false,
         toast (validationError "Enter at least one sharing option price") st)
      else if no_images fd then
        (false,
         toast (validationError "Please upload at least one image") st)
      else (true, st)
  end.

Definition handleSubmit (st : State) : State :=
  let '(ok, st1) := validateForm st in
  if ok then scrollTo 0 0 (setShowPreview true st1) else st1.

Definition postSuccess : Toast :=
  mkToast "Success!" "Your PG listing has been posted successfully." None.

Definition handlePost (st : State) : State :=
  console_log (toast postSuccess st).

(** ** Events *)

(** What the user can do to the component. *)
Inductive Event : Type :=
| InputChange : InputName -> jsstring -> Event
| RadioChange : RadioName -> jsstring -> Event
| CheckboxChange : string -> Event
| SharingPriceChange : string -> jsstring -> Event
| ImageChange : option (list File) -> Event
| Submit : Event
| EditDetails : Event
| Post : Event.

Definition dispatch (ev : Event) : State -> State :=
  match ev with
  | InputChange n v => handleInputChange n v
  | RadioChange n v => handleRadioChange n v
  | CheckboxChange n => handleCheckboxChange n
  | SharingPriceChange k v => handleSharingPriceChange k v
  | ImageChange fl => handleImageChange fl
  | Submit => handleSubmit
  | EditDetails => setShowPreview false
  | Post => handlePost
  end.

Definition run (evs : list Event) (st : State) : State :=
  fold_left (fun s ev => dispatch ev s) evs st.

(** The five price inputs pass [num.toString()] for [num] from 1 to 5:
    an event of the form changes a price only under one of the keys
    ["1"] to ["5"]. *)
Definition from_form (ev : Event) : bool :=
  match ev with
  | SharingPriceChange k _ => bool_decide (k ∈ sharing_keys)
  | _ => true
  end.

End PGListingForm.

(* ===================================================================== *)
(** * The progress tracker                                                *)
(* ===================================================================== *)

Module ProgressTracker.
Import JS.

Record Props : Type := mkProps {
  currentStep : number;
  totalSteps : number;
  labels : option (list string);
  className : option string
}.

(** The three stylings of a step circle. *)
Inductive MarkerStyle : Type := Completed | Current | Pending.

Definition circle_class (m : MarkerStyle) : string :=
  match m with
  | Completed => "bg-purple-600 text-white border-purple-600"
  | Current => "border-purple-600 text-purple-600"
  | Pending => "border-gray-300 text-gray-400"
  end.

Record Marker : Type := mkMarker {
  marker_key : nat;
  wrapper_class : string;
  circle : MarkerStyle;
  circle_text : nat;
  label_text : string
}.

Inductive Span : Type :=
| Text : string -> Span
| Percent : number -> Span.       (* the template [`${progress}%`] *)

Inductive Header : Type :=
| Markers : list Marker -> Header
| Fallback : list Span -> Header.

Record View : Type := mkView {
  header : Header;
  bar_value : number
}.

(** [Math.round((currentStep / totalSteps) * 100)] *)
Definition progress (currentStep totalSteps : number) : number :=
  Math_round (mul (div currentStep totalSteps) (of_Z 100)).

Definition index_number (index : nat) : number := of_Z (Z.of_nat index).

Definition marker_style (index : nat) (currentStep : number) : MarkerStyle :=
  if lt (index_number index) currentStep then Completed
  else if strict_eq (index_number index) currentStep then Current
  else Pending.

Definition render_marker (currentStep : number) (index : nat) (label : string)
  : Marker :=
  mkMarker index
    (if lt (index_number index) currentStep
     then "text-purple-600 font-medium" else "")%string
    (marker_style index currentStep)
    (index + 1)%nat
    label.

Definition render (p : Props) : View :=
  let labels := default [] (labels p) in
  let progress := progress (currentStep p) (totalSteps p) in
  mkView
    (match length labels with
     | S _ => Markers (imap (render_marker (currentStep p)) labels)
     | O => Fallback [Text "Start"; Percent progress; Text "Complete"]
     end)
    progress.

End ProgressTracker.

(* ===================================================================== *)
(** * The specification's vocabulary                                      *)
(* ===================================================================== *)

(** Definitions that follow the wording of the specification; the
    theorems below compare them with the code above. *)
Module Spec.
Import JS RegExp PGListingForm.

(** The shape [local@domain.tld] in words: no white space anywhere,
    one ['@'] which has text before it and none other before or after,
    and after it a ['.'] with text on both of its sides. *)
Definition local_at_domain_tld (s : jsstring) : Prop :=
  forallb (fun c => negb (is_space c)) s = true /\
  exists l r,
    s = l ++ AT :: r /\ l <> [] /\ ~ In AT l /\ ~ In AT r /\
    exists d t, r = d ++ DOT :: t /\ d <> [] /\ t <> [].

(** The five validation rules as booleans, each computed by the test the
    code applies; what rules 2 to 5 say in the words of the
    specification is part of the statement of
    [validateForm_first_failing_rule]. *)
Definition rule1 (fd : FormData) : bool :=
  truthy (pgName fd) && truthy (address fd) && truthy (ownerName fd)
  && truthy (primaryMobile fd) && truthy (email fd).
Definition rule2 (fd : FormData) : bool := test mobileRegex (primaryMobile fd).
Definition rule3 (fd : FormData) : bool := test emailRegex (email fd).
Definition rule4 (fd : FormData) : bool := hasPrice fd.
Definition rule5 (fd : FormData) : bool := negb (no_images fd).

(** The checks in the order of the specification, each with the
    message shown when it fails. *)
Definition checks (fd : FormData) : list (bool * string) :=
  [(truthy (pgName fd), "Pg Name is required");
   (truthy (address fd), "Address is required");
   (truthy (ownerName fd), "Owner Name is required");
   (truthy (primaryMobile fd), "Primary Mobile is required");
   (truthy (email fd), "Email is required");
   (rule2 fd, "Primary mobile number must be 10 digits");
   (rule3 fd, "Please enter a valid email address");
   (rule4 fd, "Enter at least one sharing option price");
   (rule5 fd, "Please upload at least one image")]%string.

Fixpoint first_failing (cs : list (bool * string)) : option string :=
  match cs with
  | [] => None
  | (ok, msg) :: cs' => if ok then first_failing cs' else Some msg
  end.

(** Every field of the record other than [amenities] agrees. *)
Definition same_but_amenities (a b : FormData) : Prop :=
  pgName a = pgName b /\ address a = address b /\
  googleMapsLink a = googleMapsLink b /\ pgType a = pgType b /\
  preferredTenants a = preferredTenants b /\ ownerName a = ownerName b /\
  primaryMobile a = primaryMobile b /\
  secondaryMobile a = secondaryMobile b /\
  whatsappNumber a = whatsappNumber b /\ email a = email b /\
  sharingPrices a = sharingPrices b /\ deposit a = deposit b /\
  refundPolicy a = refundPolicy b /\ noticePeriod a = noticePeriod b /\
  bathroomType a = bathroomType b /\ otherAmenities a = otherAmenities b /\
  images a = images b /\ videoLink a = videoLink b.

(** The state outside the record: mode and effects so far. *)
Definition same_outside_record (s s' : State) : Prop :=
  showPreview s' = showPreview s /\ toasts s' = toasts s /\
  scrolls s' = scrolls s /\ logged s' = logged s.

(** A selection of between one and ten files. *)
Definition count_in_range (files : option (list File)) : bool :=
  match files with
  | Some fl => (1 <=? length fl)%nat && (length fl <=? 10)%nat
  | None => false
  end.

(** The integer a number denotes, if it denotes one. *)
Definition int_value (x : number) : option Z :=
  match x with
  | S754_zero _ => Some 0
  | S754_finite s m e =>
      let v := if s then Z.neg m else Z.pos m in
      if 0 <=? e then Some (v * 2 ^ e)
      else if v mod 2 ^ (- e) =? 0 then Some (v / 2 ^ (- e))
      else None
  | _ => None
  end.

(** A non-negative integer amount. *)
Definition nonneg_integer (x : number) : bool :=
  match int_value x with
  | Some z => 0 <=? z
  | None => false
  end.

(** Every stored price is [null] or a non-negative integer. *)
Definition prices_nonneg_integers (fd : FormData) : Prop :=
  forall k p, sharingPrices fd !! k = Some (Some p) ->
              nonneg_integer p = true.

(** Every stored price is [null] or what [Number] makes of some
    non-empty input text. *)
Definition prices_null_or_parsed (fd : FormData) : Prop :=
  forall k v, sharingPrices fd !! k = Some v ->
    v = None \/ exists raw, raw <> [] /\ v = Some (Number raw).

(** Exactly the five occupancy keys are present. *)
Definition five_keys (fd : FormData) : Prop :=
  dom (sharingPrices fd) = list_to_set sharing_keys.

(** [round(100 * currentStep / totalSteps)] on integers, ties upwards. *)
Definition progress_spec (currentStep totalSteps : Z) : Z :=
  (2 * (100 * currentStep) + totalSteps) / (2 * totalSteps).

(** The header prints the percentage as a number. *)
Definition shows_percent (h : ProgressTracker.Header) : bool :=
  match h with
  | ProgressTracker.Markers _ => false
  | ProgressTracker.Fallback spans =>
      existsb (fun sp => match sp with
                         | ProgressTracker.Percent _ => true
                         | ProgressTracker.Text _ => false
                         end) spans
  end.

End Spec.

(* ===================================================================== *)
(** * The rendered component                                              *)
(* ===================================================================== *)

(** What the component shows back: the values of its controlled inputs,
    which elements exist in each mode, and the lists of the preview. *)
Module Component.
Import JS RegExp PGListingForm Spec.

(** [value={formData.<name>}] of a text input. *)
Definition read_input (fd : FormData) (name : InputName) : jsstring :=
  match name with
  | NpgName => pgName fd
  | Naddress => address fd
  | NgoogleMapsLink => googleMapsLink fd
  | NownerName => ownerName fd
  | NprimaryMobile => primaryMobile fd
  | NsecondaryMobile => secondaryMobile fd
  | NwhatsappNumber => whatsappNumber fd
  | Nemail => email fd
  | Ndeposit => deposit fd
  | NrefundPolicy => refundPolicy fd
  | NnoticePeriod => noticePeriod fd
  | NotherAmenities => otherAmenities fd
  | NvideoLink => videoLink fd
  end.

(** [value={formData.<name>}] of a radio group. *)
Definition read_radio (fd : FormData) (name : RadioName) : jsstring :=
  match name with
  | NpgType => pgType fd
  | NpreferredTenants => preferredTenants fd
  | NbathroomType => bathroomType fd
  end.

Definition eqb_input (a b : InputName) : bool :=
  match a, b with
  | NpgName, NpgName | Naddress, Naddress
  | NgoogleMapsLink, NgoogleMapsLink | NownerName, NownerName
  | NprimaryMobile, NprimaryMobile | NsecondaryMobile, NsecondaryMobile
  | NwhatsappNumber, NwhatsappNumber | Nemail, Nemail
  | Ndeposit, Ndeposit | NrefundPolicy, NrefundPolicy
  | NnoticePeriod, NnoticePeriod | NotherAmenities, NotherAmenities
  | NvideoLink, NvideoLink => true
  | _, _ => false
  end.

(** The inputs [validateForm] reads. *)
Definition validated_input (name : InputName) : bool :=
  match name with
  | NpgName | Naddress | NownerName | NprimaryMobile | Nemail => true
  | _ => false
  end.

(** The component renders the form while [showPreview] is false and
    the preview otherwise: the inputs and the submit button exist only
    in the form, the "Edit Listing" and "Post PG Listing" buttons only
    in the preview.  A checkbox exists for each of the ten amenity
    names and a price input for each of the keys "1" to "5". *)
Definition rendered (st : State) (ev : Event) : bool :=
  match ev with
  | EditDetails | Post => showPreview st
  | CheckboxChange n =>
      negb (showPreview st) && bool_decide (n ∈ amenity_names)
  | SharingPriceChange k _ =>
      negb (showPreview st) && bool_decide (k ∈ sharing_keys)
  | _ => negb (showPreview st)
  end.

(** The states a user can bring the component to. *)
Inductive Reachable : State -> Prop :=
| reach_initial : Reachable initialState
| reach_event st ev :
    Reachable st -> rendered st ev = true -> Reachable (dispatch ev st).

(** Each event of the list finds its element rendered when it occurs. *)
Fixpoint rendered_all (st : State) (evs : list Event) : bool :=
  match evs with
  | [] => true
  | ev :: rest => rendered st ev && rendered_all (dispatch ev st) rest
  end.

(** A session that fills the form in and submits it. *)
Definition filled_in : list Event :=
  [InputChange NpgName (js "Comfort Stay PG");
   InputChange Naddress (js "12 Lake Road");
   InputChange NownerName (js "Asha");
   InputChange NprimaryMobile (js "9876543210");
   InputChange Nemail (js "asha@example.com");
   SharingPriceChange "2" (js "7500");
   CheckboxChange "wifi";
   ImageChange (Some [mkFile "room.jpg" []]);
   Submit]%string.

Definition is_post (ev : Event) : bool :=
  match ev with
  | Post => true
  | _ => false
  end.

(** The record passes all five rules. *)
Definition valid (fd : FormData) : bool :=
  rule1 fd && rule2 fd && rule3 fd && rule4 fd && rule5 fd.

(** No images yet, or between one and ten of them. *)
Definition image_count_ok (fd : FormData) : bool :=
  match images fd with
  | Some fl => (1 <=? length fl)%nat && (length fl <=? 10)%nat
  | None => true
  end.

(** What every event keeps: previewing implies a valid record, the
    image count is in bounds, the payloads logged so far were valid,
    and the two objects keep their keys. *)
Definition invariant (st : State) : Prop :=
  (showPreview st = true -> valid (formData st) = true) /\
  image_count_ok (formData st) = true /\
  Forall (fun fd => valid fd = true) (logged st) /\
  dom (amenities (formData st)) = list_to_set amenity_names /\
  five_keys (formData st).

(** The value of a string of decimal digits. *)
Definition digits_value (s : jsstring) : N :=
  fold_left (fun acc c => (acc * 10 + (c - 48))%N) s 0%N.

(** A card of the "Monthly Rent" grid of the preview. *)
Record PriceCard : Type := mkPriceCard {
  card_key : string;
  card_title : string;
  card_amount : number
}.

(** [Object.entries(o)], in the order of the map and not in
    JavaScript's property order: the lists built from it have the
    members of the rendered ones, and the theorems speak of membership
    and of repetitions only. *)
Definition Object_entries {A} (o : gmap string A) : list (string * A) :=
  map_to_list o.

(** The callback of [Object.entries(formData.sharingPrices).map]: a card
    or [null]. *)
Definition price_card (entry : string * option number) : option PriceCard :=
  let '(key, value) := entry in
  match value with
  | Some v =>
      if gt v (S754_zero false)
      then Some (mkPriceCard key
                   (if String.eqb key "1" then "Single"
                    else key ++ " Sharing")%string v)
      else None
  | None => None
  end.

Definition priceCards (fd : FormData) : list PriceCard :=
  omap price_card (Object_entries (sharingPrices fd)).

(** The labels of the amenities grid: one for each flag that is set. *)
Definition amenityLabels (fd : FormData) : list string :=
  omap (fun '(key, value) =>
          if value : bool then Some (field_label key) else None)
    (Object_entries (amenities fd)).

(** [formData.images && Array.from(formData.images).slice(0, 10).map(...)]:
    each image with the number of its [alt] text. *)
Definition previewImages (fd : FormData) : list (File * nat) :=
  match images fd with
  | Some fl => imap (fun index image => (image, (index + 1)%nat)) (take 10 fl)
  | None => []
  end.

(** Undoing [field_label]: drop the spaces, lower the first letter. *)
Fixpoint drop_spaces (s : string) : string :=
  match s with
  | EmptyString => EmptyString
  | String a s' =>
      if Ascii.eqb a " " then drop_spaces s' else String a (drop_spaces s')
  end.

Definition uncapitalize (s : string) : string :=
  match s with
  | EmptyString => EmptyString
  | String a s' =>
      String (if is_upper a then ascii_of_N (N_of_ascii a + 32) else a) s'
  end.

Fixpoint no_space (s : string) : bool :=
  match s with
  | EmptyString => true
  | String a s' => negb (Ascii.eqb a " ") && no_space s'
  end.

(** An identifier in camel case: it starts with a small letter and has
    no space. *)
Definition camel_case (s : string) : bool :=
  match s with
  | EmptyString => false
  | String a _ => is_lower a && no_space s
  end.

(** The styles of the step circles for a whole current step [k] among
    [n] labels: completed ones, then the current one, then pending ones. *)
Definition circles_spec (k n : nat) : list ProgressTracker.MarkerStyle :=
  replicate (Nat.min k n) ProgressTracker.Completed
  ++ (if (k <? n)%nat
      then ProgressTracker.Current
             :: replicate (n - k - 1) ProgressTracker.Pending
      else []).

End Component.

(* ===================================================================== *)
(** * Properties of the regular expression matcher                        *)
(* ===================================================================== *)

Module RegExpFacts.
Import JS RegExp.

Lemma nullable_matches r : nullable r = true <-> Matches r [].
Proof.
  induction r as [| | p | r1 IH1 r2 IH2 | r1 IH1 r2 IH2 | r IH]; simpl.
  - split; [discriminate | inversion 1].
  - split; [constructor | reflexivity].
  - split; [discriminate | inversion 1].
  - rewrite andb_true_iff, IH1, IH2. split.
    + intros [H1 H2]. exact (MCat _ _ [] [] H1 H2).
    + inversion 1 as [| |? ? s1 s2 H1 H2 E1 E2| | | |]; subst.
      apply app_eq_nil in E2 as [-> ->]. auto.
  - rewrite orb_true_iff, IH1, IH2. split.
    + intros [H | H]; [apply MAltL | apply MAltR]; exact H.
    + inversion 1; subst; auto.
  - split; [constructor | reflexivity].
Qed.

Lemma matches_deriv r s0 :
  Matches r s0 -> forall c s, s0 = c :: s -> Matches (deriv c r) s.
Proof.
  induction 1 as [| p c0 Hp | r1 r2 s1 s2 H1 IH1 H2 IH2 | r1 r2 s0 H IH
                  | r1 r2 s0 H IH | r | r s1 s2 H1 IH1 H2 IH2];
    intros c s E; simpl.
  - discriminate.
  - injection E as -> <-. rewrite Hp. constructor.
  - destruct s1 as [| c1 s1'].
    + simpl in E. subst s2.
      apply nullable_matches in H1. rewrite H1.
      apply MAltR. apply IH2. reflexivity.
    + simpl in E. injection E as -> <-.
      assert (Matches (Cat (deriv c r1) r2) (s1' ++ s2)) as Hc
        by (constructor; [apply IH1; reflexivity | exact H2]).
      destruct (nullable r1); [apply MAltL |]; exact Hc.
  - apply MAltL. apply IH. exact E.
  - apply MAltR. apply IH. exact E.
  - discriminate.
  - destruct s1 as [| c1 s1'].
    + simpl in E. apply IH2 in E. exact E.
    + simpl in E. injection E as -> <-.
      constructor; [apply IH1; reflexivity | exact H2].
Qed.

Lemma deriv_matches r : forall c s, Matches (deriv c r) s -> Matches r (c :: s).
Proof.
  induction r as [| | p | r1 IH1 r2 IH2 | r1 IH1 r2 IH2 | r IH];
    intros c s; simpl.
  - inversion 1.
  - inversion 1.
  - destruct (p c) eqn:Hp; inversion 1; subst. constructor. exact Hp.
  - assert (forall s', Matches (Cat (deriv c r1) r2) s' ->
                       Matches (Cat r1 r2) (c :: s')) as Hcat.
    { inversion 1 as [| |? ? s1 s2 H1 H2| | | |]; subst.
      apply IH1 in H1. exact (MCat _ _ (c :: s1) s2 H1 H2). }
    destruct (nullable r1) eqn:Hn.
    + inversion 1 as [| | |? ? ? H1|? ? ? H2| |]; subst.
      * apply Hcat. exact H1.
      * apply nullable_matches in Hn. apply IH2 in H2.
        exact (MCat _ _ [] (c :: s) Hn H2).
    + apply Hcat.
  - inversion 1; subst; [apply MAltL; apply IH1 | apply MAltR; apply IH2];
      assumption.
  - inversion 1 as [| |? ? s1 s2 H1 H2| | | |]; subst.
    apply IH in H1. exact (MStarS _ (c :: s1) s2 H1 H2).
Qed.

(** [test] decides the language of the pattern. *)
Lemma test_matches s : forall r, test r s = true <-> Matches r s.
Proof.
  induction s as [| c s IH]; intros r; simpl.
  - apply nullable_matches.
  - rewrite IH. split.
    + apply deriv_matches.
    + intros H. eapply matches_deriv; [exact H | reflexivity].
Qed.

Lemma matches_class p s :
  Matches (Class p) s <-> exists c, s = [c] /\ p c = true.
Proof.
  split.
  - inversion 1; subst. eauto.
  - intros (c & -> & Hp). constructor. exact Hp.
Qed.

Lemma matches_cat r1 r2 s :
  Matches (Cat r1 r2) s <->
  exists s1 s2, s = s1 ++ s2 /\ Matches r1 s1 /\ Matches r2 s2.
Proof.
  split.
  - inversion 1; subst. eauto.
  - intros (s1 & s2 & -> & H1 & H2). constructor; assumption.
Qed.

Lemma matches_star_class p s :
  Matches (Star (Class p)) s <-> forallb p s = true.
Proof.
  split.
  - intros H. remember (Star (Class p)) as r eqn:Er.
    induction H as [| | | | | r0 | r0 s1 s2 H1 _ H2 IH2]; try discriminate.
    + reflexivity.
    + injection Er as ->. inversion H1; subst. simpl.
      rewrite IH2 by reflexivity. rewrite andb_true_r. assumption.
  - induction s as [| c s IH]; simpl.
    + constructor.
    + rewrite andb_true_iff. intros [Hc Hs].
      apply (MStarS _ [c] s); [constructor; exact Hc | apply IH; exact Hs].
Qed.

Lemma matches_plus_class p s :
  Matches (Plus (Class p)) s <-> s <> [] /\ forallb p s = true.
Proof.
  unfold Plus. rewrite matches_cat. split.
  - intros (s1 & s2 & -> & H1 & H2).
    apply matches_class in H1 as (c & -> & Hc).
    apply matches_star_class in H2. simpl. rewrite Hc, H2.
    split; [discriminate | reflexivity].
  - destruct s as [| c s]; intros [Hne Hall]; [congruence |].
    simpl in Hall. apply andb_true_iff in Hall as [Hc Hs].
    exists [c], s. split; [reflexivity |]. split.
    + constructor. exact Hc.
    + apply matches_star_class. exact Hs.
Qed.

Lemma matches_repeat_class p n : forall s,
  Matches (Repeat n (Class p)) s <-> length s = n /\ forallb p s = true.
Proof.
  induction n as [| n IH]; intros s; simpl.
  - split.
    + inversion 1. split; reflexivity.
    + intros [Hl _]. destruct s; [constructor | discriminate].
  - rewrite matches_cat. split.
    + intros (s1 & s2 & -> & H1 & H2).
      apply matches_class in H1 as (c & -> & Hc).
      apply IH in H2 as [Hl Hs]. simpl. rewrite Hl, Hc, Hs. auto.
    + destruct s as [| c s]; intros [Hl Hall]; [discriminate |].
      simpl in Hl, Hall. apply andb_true_iff in Hall as [Hc Hs].
      exists [c], s. split; [reflexivity |]. split.
      * constructor. exact Hc.
      * apply IH. split; [congruence | exact Hs].
Qed.

Lemma matches_char c s : Matches (Char c) s <-> s = [c].
Proof.
  unfold Char. rewrite matches_class. split.
  - intros (c' & -> & H). apply N.eqb_eq in H. congruence.
  - intros ->. exists c. split; [reflexivity | apply N.eqb_refl].
Qed.

End RegExpFacts.

(* ===================================================================== *)
(** * The two format rules                                                *)
(* ===================================================================== *)

Module FormatRules.
Import JS RegExp RegExpFacts PGListingForm Spec.

Lemma not_space_at_spec l :
  forallb not_space_at l = true <->
  forallb (fun c => negb (is_space c)) l = true /\ ~ In AT l.
Proof.
  induction l as [| c l IH]; simpl.
  - tauto.
  - rewrite !andb_true_iff, IH. unfold not_space_at.
    rewrite negb_true_iff, orb_false_iff, N.eqb_neq, negb_true_iff.
    intuition congruence.
Qed.

Lemma email_regex_parts s :
  test emailRegex s = true <->
  exists l d t,
    s = l ++ AT :: d ++ DOT :: t /\
    (l <> [] /\ forallb not_space_at l = true) /\
    (d <> [] /\ forallb not_space_at d = true) /\
    (t <> [] /\ forallb not_space_at t = true).
Proof.
  rewrite test_matches. unfold emailRegex.
  rewrite matches_cat. split.
  - intros (l & r1 & -> & Hl & H1).
    apply matches_cat in H1 as (a & r2 & -> & Ha & H2).
    apply matches_cat in H2 as (d & r3 & -> & Hd & H3).
    apply matches_cat in H3 as (b & t & -> & Hb & Ht).
    apply matches_char in Ha as ->. apply matches_char in Hb as ->.
    apply matches_plus_class in Hl, Hd, Ht.
    exists l, d, t. simpl. auto.
  - intros (l & d & t & -> & Hl & Hd & Ht).
    apply matches_plus_class in Hl, Hd, Ht.
    exists l, (AT :: d ++ DOT :: t). split; [reflexivity |].
    split; [exact Hl |].
    apply matches_cat. exists [AT], (d ++ DOT :: t).
    split; [reflexivity |]. split; [apply matches_char; reflexivity |].
    apply matches_cat. exists d, (DOT :: t).
    split; [reflexivity |]. split; [exact Hd |].
    apply matches_cat. exists [DOT], t.
    split; [reflexivity |]. split; [apply matches_char; reflexivity |].
    exact Ht.
Qed.

Lemma forallb_app_true {A} (f : A -> bool) l1 l2 :
  forallb f (l1 ++ l2) = true <-> forallb f l1 = true /\ forallb f l2 = true.
Proof. rewrite forallb_app, andb_true_iff. reflexivity. Qed.

Lemma email_regex_shape s :
  test emailRegex s = true <-> local_at_domain_tld s.
Proof.
  rewrite email_regex_parts. unfold local_at_domain_tld. split.
  - intros (l & d & t & -> & [Hl1 Hl2] & [Hd1 Hd2] & [Ht1 Ht2]).
    apply not_space_at_spec in Hl2 as [Hl2 Hl3].
    apply not_space_at_spec in Hd2 as [Hd2 Hd3].
    apply not_space_at_spec in Ht2 as [Ht2 Ht3].
    split.
    + apply forallb_app_true. split; [exact Hl2 |].
      simpl. apply forallb_app_true. split; [exact Hd2 |].
      simpl. exact Ht2.
    + exists l, (d ++ DOT :: t). repeat split; try assumption.
      * rewrite in_app_iff. simpl. unfold AT, DOT.
        intros [H | [H | H]]; [tauto | discriminate | tauto].
      * exists d, t. auto.
  - intros (Hs & l & r & -> & Hl & Hal & Har & d & t & -> & Hd & Ht).
    apply forallb_app_true in Hs as [Hsl Hs]. simpl in Hs.
    apply forallb_app_true in Hs as [Hsd Hs]. simpl in Hs.
    rewrite in_app_iff in Har. simpl in Har.
    exists l, d, t. split; [reflexivity |].
    rewrite !not_space_at_spec. tauto.
Qed.

(** C3.  The pattern tested against [primaryMobile] accepts a string
    exactly when it consists of exactly ten decimal digits; "12345" is
    rejected and "9876543210" accepted. *)
Theorem mobile_rule_ten_digits :
  (forall s : jsstring,
     test mobileRegex s = true <->
     length s = 10%nat /\ forallb is_digit s = true) /\
  test mobileRegex (js "12345") = false /\
  test mobileRegex (js "9876543210") = true.
Proof.
  split; [| split; reflexivity].
  intros s. rewrite test_matches. apply matches_repeat_class.
Qed.

(** C4.  The pattern tested against [email] accepts a string exactly
    when it has the shape local@domain.tld: no white space, exactly one
    ['@'] with text before it, and a ['.'] after the ['@'] with text on
    both sides; "a@b" is rejected and "a@b.com" accepted. *)
Theorem email_rule_shape :
  (forall s : jsstring, test emailRegex s = true <-> local_at_domain_tld s) /\
  test emailRegex (js "a@b") = false /\
  test emailRegex (js "a@b.com") = true.
Proof.
  split; [exact email_regex_shape | split; reflexivity].
Qed.

End FormatRules.

(* ===================================================================== *)
(** * Validation and submission                                           *)
(* ===================================================================== *)

Module Validation.
Import JS RegExp PGListingForm Spec RegExpFacts FormatRules.


(** The loop over [requiredFields], unrolled. *)
Lemma check_required_unrolled fd :
  check_required fd requiredFields =
  first_failing (firstn 5 (checks fd))
    ≫= (fun msg => Some (validationError msg)).
Proof.
  unfold requiredFields, check_required, get, properties, assoc.
  simpl String.eqb. cbv iota. unfold to_boolean, checks, firstn, first_failing.
  destruct (truthy (pgName fd)); [| reflexivity].
  destruct (truthy (address fd)); [| reflexivity].
  destruct (truthy (ownerName fd)); [| reflexivity].
  destruct (truthy (primaryMobile fd)); [| reflexivity].
  destruct (truthy (email fd)); reflexivity.
Qed.

Lemma validateForm_checks st :
  validateForm st =
  match first_failing (checks (formData st)) with
  | Some msg => (false, toast (validationError msg) st)
  | None => (true, st)
  end.
Proof.
  unfold validateForm. rewrite check_required_unrolled.
  unfold checks, firstn, first_failing, rule2, rule3, rule4, rule5.
  destruct (truthy (pgName (formData st))); [| reflexivity].
  destruct (truthy (address (formData st))); [| reflexivity].
  destruct (truthy (ownerName (formData st))); [| reflexivity].
  destruct (truthy (primaryMobile (formData st))); [| reflexivity].
  destruct (truthy (email (formData st))); [| reflexivity].
  simpl mbind. cbv beta iota.
  destruct (test mobileRegex _); [| reflexivity].
  destruct (test emailRegex _); [| reflexivity].
  destruct (hasPrice _); [| reflexivity].
  destruct (no_images _); reflexivity.
Qed.

Lemma first_failing_none fd :
  first_failing (checks fd) = None <->
  rule1 fd && rule2 fd && rule3 fd && rule4 fd && rule5 fd = true.
Proof.
  unfold checks, first_failing, rule1.
  destruct (truthy (pgName fd)), (truthy (address fd)),
    (truthy (ownerName fd)), (truthy (primaryMobile fd)),
    (truthy (email fd)), (rule2 fd), (rule3 fd), (rule4 fd), (rule5 fd);
    simpl; split; congruence.
Qed.


Lemma validateForm_true st :
  fst (validateForm st) = true <->
  rule1 (formData st) && rule2 (formData st) && rule3 (formData st)
  && rule4 (formData st) && rule5 (formData st) = true.
Proof.
  rewrite validateForm_checks, <- first_failing_none.
  destruct (first_failing _); simpl; split; congruence.
Qed.

Lemma handleSubmit_record st : formData (handleSubmit st) = formData st.
Proof.
  unfold handleSubmit. rewrite validateForm_checks.
  destruct (first_failing _); reflexivity.
Qed.

Lemma hasPrice_true fd :
  hasPrice fd = true <->
  exists k p, sharingPrices fd !! k = Some (Some p) /\
              gt p (S754_zero false) = true.
Proof.
  unfold hasPrice, Object_values. rewrite existsb_exists. split.
  - intros (v & Hin & Hv). apply list_elem_of_In in Hin.
    apply list_elem_of_fmap in Hin as ([k v'] & -> & Hkv).
    apply elem_of_map_to_list in Hkv. simpl in Hv.
    destruct v' as [p |]; [| discriminate]. eauto.
  - intros (k & p & Hk & Hp). exists (Some p). split; [| exact Hp].
    apply list_elem_of_In. apply list_elem_of_fmap.
    exists (k, Some p). split; [reflexivity |].
    apply elem_of_map_to_list. exact Hk.
Qed.

Lemma hasPrice_false fd :
  hasPrice fd = false <->
  forall k v, sharingPrices fd !! k = Some v ->
              v = None \/ exists p, v = Some p /\ gt p (S754_zero false) = false.
Proof.
  rewrite <- not_true_iff_false, hasPrice_true. split.
  - intros Hno k [p |] Hk; [right | left; reflexivity].
    exists p. split; [reflexivity |].
    destruct (gt p _) eqn:Hp; [| reflexivity].
    exfalso. apply Hno. eauto.
  - intros Hall (k & p & Hk & Hp).
    destruct (Hall _ _ Hk) as [? | (p' & [= <-] & Hp')]; congruence.
Qed.





(** C1.  [handleSubmit] runs [validateForm] and never changes the
    record.  When validation succeeds the mode becomes previewing and
    the window is scrolled to the top; when it fails the mode, the
    scroll position and the record stay as they were and one error is
    shown; in particular an empty required field keeps the form in
    editing mode. *)
Theorem handleSubmit_preview_or_unchanged (st : State) :
  formData (handleSubmit st) = formData st /\
  (fst (validateForm st) = true ->
   showPreview (handleSubmit st) = true /\
   scrolls (handleSubmit st) = scrolls st ++ [(0, 0)] /\
   toasts (handleSubmit st) = toasts st) /\
  (fst (validateForm st) = false ->
   handleSubmit st = snd (validateForm st) /\
   showPreview (handleSubmit st) = showPreview st /\
   scrolls (handleSubmit st) = scrolls st /\
   exists t, toasts (handleSubmit st) = toasts st ++ [t]) /\
  (rule1 (formData st) = false -> showPreview st = false ->
   showPreview (handleSubmit st) = false).
Proof.
  pose proof (validateForm_checks st) as Hv.
  pose proof (validateForm_true st) as Hok.
  unfold handleSubmit. rewrite Hv in *.
  destruct (first_failing (checks (formData st))) as [msg |]; simpl in *.
  - repeat split; try discriminate; eauto.
  - repeat split; try discriminate.
    intros H1. destruct Hok as [Hok _]. specialize (Hok eq_refl).
    rewrite H1 in Hok. discriminate.
Qed.

End Validation.

(* ===================================================================== *)
(** * Prices, images and amenities                                        *)
(* ===================================================================== *)

Module Handlers.
Import JS RegExp PGListingForm Spec Validation.

Lemma sharingPrices_after key value st :
  sharingPrices (formData (handleSharingPriceChange key value st)) =
  <[key := match value with [] => None | _ :: _ => Some (Number value) end]>
    (sharingPrices (formData st)).
Proof. destruct st as [[] ? ? ? ?]. reflexivity. Qed.

Lemma rules_after_price key value st :
  let fd' := formData (handleSharingPriceChange key value st) in
  rule1 fd' = rule1 (formData st) /\ rule2 fd' = rule2 (formData st) /\
  rule3 fd' = rule3 (formData st) /\ rule5 fd' = rule5 (formData st).
Proof. destruct st as [[] ? ? ? ?]. repeat split; reflexivity. Qed.

Lemma handleSubmit_valid st :
  fst (validateForm st) = true -> showPreview (handleSubmit st) = true.
Proof.
  unfold handleSubmit. destruct (validateForm st) as [ok st1]. simpl.
  intros ->. reflexivity.
Qed.

(** C5.  The price rule fails exactly when every entry of
    [sharingPrices] is [null] or not greater than zero and holds
    exactly when some entry is a number greater than zero; the default
    record fails it, and entering 5000 for key "2" satisfies it, after
    which a record that meets the other four rules is accepted by
    [handleSubmit]. *)
Theorem price_rule_some_positive :
  (forall fd,
     hasPrice fd = false <->
     forall k v, sharingPrices fd !! k = Some v ->
       v = None \/ exists p, v = Some p /\ gt p (S754_zero false) = false) /\
  (forall fd,
     hasPrice fd = true <->
     exists k p, sharingPrices fd !! k = Some (Some p) /\
                 gt p (S754_zero false) = true) /\
  hasPrice initialFormData = false /\
  (forall st,
     sharingPrices (formData (handleSharingPriceChange "2" (js "5000") st))
       !! "2"%string = Some (Some (of_Z 5000)) /\
     hasPrice (formData (handleSharingPriceChange "2" (js "5000") st)) = true /\
     (rule1 (formData st) && rule2 (formData st) && rule3 (formData st)
      && rule5 (formData st) = true ->
      showPreview
        (handleSubmit (handleSharingPriceChange "2" (js "5000") st)) = true)).
Proof.
  split; [exact hasPrice_false |]. split; [exact hasPrice_true |].
  split; [vm_compute; reflexivity |].
  intros st.
  assert (sharingPrices (formData (handleSharingPriceChange "2" (js "5000") st))
            !! "2"%string = Some (Some (of_Z 5000))) as H.
  { rewrite sharingPrices_after, lookup_insert_eq. reflexivity. }
  assert (hasPrice (formData (handleSharingPriceChange "2" (js "5000") st))
          = true) as Hprice.
  { apply hasPrice_true. exists "2"%string, (of_Z 5000).
    split; [exact H | reflexivity]. }
  split; [exact H |]. split; [exact Hprice |].
  intros Hrules. apply handleSubmit_valid, validateForm_true.
  destruct (rules_after_price "2" (js "5000") st) as (-> & -> & -> & ->).
  unfold rule4. rewrite Hprice.
  destruct (rule1 _), (rule2 _), (rule3 _), (rule5 _);
    try discriminate; reflexivity.
Qed.

(** C6.  [handleImageChange] stores the selection, exactly as given,
    when it holds between one and ten files and then shows nothing;
    for any other count, and for no file list at all, the record
    (hence the earlier images) is unchanged and the upload error is
    shown. *)
Theorem handleImageChange_all_or_nothing (files : option (list File))
  (st : State) :
  (count_in_range files = true <->
   exists fl, files = Some fl /\ (1 <= length fl <= 10)%nat) /\
  (if count_in_range files
   then
     images (formData (handleImageChange files st)) = files /\
     formData (handleImageChange files st) = set_images (formData st) files /\
     toasts (handleImageChange files st) = toasts st
   else
     formData (handleImageChange files st) = formData st /\
     toasts (handleImageChange files st) = toasts st ++ [imageUploadError]) /\
  showPreview (handleImageChange files st) = showPreview st.
Proof.
  split.
  - unfold count_in_range. destruct files as [fl |].
    + rewrite andb_true_iff, Nat.leb_le, Nat.leb_le. split.
      * intros H. exists fl. split; [reflexivity | lia].
      * intros (fl' & [= <-] & H). lia.
    + split; [discriminate | intros (? & ? & _); discriminate].
  - unfold count_in_range, handleImageChange.
    destruct files as [fl |]; [| split; [split |]; reflexivity].
    replace (0 <? length fl)%nat with (1 <=? length fl)%nat
      by (destruct (length fl); reflexivity).
    destruct ((1 <=? length fl)%nat && (length fl <=? 10)%nat);
      [| split; [split |]; reflexivity].
    destruct st as [[] ? ? ? ?]. split; [split; [| split] |]; reflexivity.
Qed.

Lemma amenities_after name st :
  amenities (formData (handleCheckboxChange name st)) =
  <[name := negb (default (inherited name)
                    (amenities (formData st) !! name))]>
    (amenities (formData st)).
Proof. destruct st as [[] ? ? ? ?]. reflexivity. Qed.

(** C7.  For each of the ten amenity names and every record carrying
    the ten flags, [handleCheckboxChange] negates that flag, leaves
    the other flags as they are, and changes nothing else: not the
    other fields of the record, nor the mode, nor any effect. *)
Theorem handleCheckboxChange_flips_one (name : string) (st : State) :
  name ∈ amenity_names ->
  dom (amenities (formData st)) = list_to_set amenity_names ->
  exists b,
    amenities (formData st) !! name = Some b /\
    amenities (formData (handleCheckboxChange name st)) !! name
      = Some (negb b) /\
    (forall other, other <> name ->
       amenities (formData (handleCheckboxChange name st)) !! other
         = amenities (formData st) !! other) /\
    dom (amenities (formData (handleCheckboxChange name st)))
      = list_to_set amenity_names /\
    same_but_amenities (formData st) (formData (handleCheckboxChange name st)) /\
    same_outside_record st (handleCheckboxChange name st).
Proof.
  intros Hname Hdom.
  assert (is_Some (amenities (formData st) !! name)) as [b Hb].
  { apply elem_of_dom. rewrite Hdom. apply elem_of_list_to_set. exact Hname. }
  exists b. split; [exact Hb |].
  rewrite amenities_after, Hb. simpl.
  split; [apply lookup_insert_eq |].
  split; [intros other Hne; apply lookup_insert_ne; congruence |].
  split.
  - rewrite dom_insert_L, Hdom.
    assert (name ∈ (list_to_set amenity_names : gset string)) as Hin
      by (apply elem_of_list_to_set; exact Hname).
    apply set_eq. intros x. rewrite elem_of_union, elem_of_singleton.
    split; [intros [-> | Hx]; assumption | auto].
  - destruct st as [[] ? ? ? ?]. unfold same_but_amenities, same_outside_record.
    simpl. repeat split; reflexivity.
Qed.

(** The theorem applied to the default state and the flag [wifi]. *)
Lemma handleCheckboxChange_flips_one_witness :
  ("wifi"%string ∈ amenity_names /\
   dom (amenities (formData initialState)) = list_to_set amenity_names) /\
  exists b,
    amenities (formData initialState) !! "wifi"%string = Some b /\
    amenities (formData (handleCheckboxChange "wifi" initialState))
      !! "wifi"%string = Some (negb b) /\
    (forall other, other <> "wifi"%string ->
       amenities (formData (handleCheckboxChange "wifi" initialState)) !! other
         = amenities (formData initialState) !! other) /\
    dom (amenities (formData (handleCheckboxChange "wifi" initialState)))
      = list_to_set amenity_names /\
    same_but_amenities (formData initialState)
      (formData (handleCheckboxChange "wifi" initialState)) /\
    same_outside_record initialState (handleCheckboxChange "wifi" initialState).
Proof.
  assert ("wifi"%string ∈ amenity_names) as Hin
    by (unfold amenity_names; apply list_elem_of_here).
  assert (dom (amenities (formData initialState))
          = list_to_set amenity_names) as Hdom.
  { unfold initialState, initialFormData. cbn [formData amenities].
    rewrite dom_list_to_map_L. f_equal. }
  split; [split; assumption |].
  apply (handleCheckboxChange_flips_one "wifi" initialState Hin Hdom).
Defined.

End Handlers.

(* ===================================================================== *)
(** * What a session can store in [sharingPrices]                         *)
(* ===================================================================== *)

Module Sessions.
Import JS RegExp PGListingForm Spec Validation Handlers.

Lemma set_input_sharingPrices fd n v :
  sharingPrices (set_input fd n v) = sharingPrices fd.
Proof. destruct fd, n; reflexivity. Qed.

Lemma set_radio_sharingPrices fd n v :
  sharingPrices (set_radio fd n v) = sharingPrices fd.
Proof. destruct fd, n; reflexivity. Qed.

Lemma set_amenities_sharingPrices fd a :
  sharingPrices (set_amenities fd a) = sharingPrices fd.
Proof. destruct fd; reflexivity. Qed.

Lemma set_images_sharingPrices fd i :
  sharingPrices (set_images fd i) = sharingPrices fd.
Proof. destruct fd; reflexivity. Qed.

Lemma handleImageChange_sharingPrices files st :
  sharingPrices (formData (handleImageChange files st))
  = sharingPrices (formData st).
Proof.
  unfold handleImageChange. destruct files as [fl |]; [| reflexivity].
  destruct (_ && _); [apply set_images_sharingPrices | reflexivity].
Qed.

(** Only a price input changes [sharingPrices]. *)
Lemma dispatch_sharingPrices ev st :
  sharingPrices (formData (dispatch ev st)) =
  match ev with
  | SharingPriceChange key value =>
      <[key := match value with [] => None | _ :: _ => Some (Number value) end]>
        (sharingPrices (formData st))
  | _ => sharingPrices (formData st)
  end.
Proof.
  destruct ev as [n v | n v | n | k v | fl | | |]; simpl.
  - apply set_input_sharingPrices.
  - apply set_radio_sharingPrices.
  - apply set_amenities_sharingPrices.
  - apply sharingPrices_after.
  - apply handleImageChange_sharingPrices.
  - rewrite handleSubmit_record. reflexivity.
  - reflexivity.
  - reflexivity.
Qed.

Lemma dispatch_keeps_prices ev st :
  from_form ev = true ->
  five_keys (formData st) /\ prices_null_or_parsed (formData st) ->
  five_keys (formData (dispatch ev st)) /\
  prices_null_or_parsed (formData (dispatch ev st)).
Proof.
  unfold five_keys, prices_null_or_parsed.
  intros Hev [Hdom Hval]. rewrite dispatch_sharingPrices.
  destruct ev as [n v | n v | n | key value | fl | | |]; auto.
  simpl in Hev. apply bool_decide_eq_true in Hev. split.
  - rewrite dom_insert_L, Hdom.
    assert (key ∈ (list_to_set sharing_keys : gset string)) as Hin
      by (apply elem_of_list_to_set; exact Hev).
    apply set_eq. intros x. rewrite elem_of_union, elem_of_singleton.
    split; [intros [-> | Hx]; assumption | auto].
  - intros k v Hk. destruct (decide (key = k)) as [-> | Hne].
    + rewrite lookup_insert_eq in Hk. injection Hk as <-.
      destruct value as [| c value']; [left; reflexivity |].
      right. exists (c :: value'). split; [discriminate | reflexivity].
    + rewrite lookup_insert_ne in Hk by exact Hne. eauto.
Qed.

Lemma run_keeps_prices evs : forall st,
  Forall (fun ev => from_form ev = true) evs ->
  five_keys (formData st) /\ prices_null_or_parsed (formData st) ->
  five_keys (formData (run evs st)) /\
  prices_null_or_parsed (formData (run evs st)).
Proof.
  induction evs as [| ev evs IH]; intros st Hevs Hst; simpl.
  - exact Hst.
  - apply Forall_cons in Hevs as [Hev Hevs].
    apply IH; [exact Hevs |]. apply dispatch_keeps_prices; assumption.
Qed.

Lemma initial_prices :
  five_keys initialFormData /\ prices_null_or_parsed initialFormData.
Proof.
  split.
  - vm_compute. reflexivity.
  - intros k v Hk. left.
    unfold initialFormData, sharing_keys in Hk. simpl in Hk.
    repeat (apply lookup_insert_Some in Hk as [[_ <-] | [_ Hk]];
            [reflexivity |]).
    rewrite lookup_empty in Hk. discriminate.
Qed.

(** C9, as the code has it.  After any sequence of events of the form,
    starting from the default record, the keys of [sharingPrices] are
    exactly "1" to "5", and every value is [null] or the number that
    [Number] makes of a non-empty input text (which may be negative,
    fractional or NaN). *)
Theorem sharingPrices_keys_and_values (evs : list Event) :
  Forall (fun ev => from_form ev = true) evs ->
  five_keys (formData (run evs initialState)) /\
  prices_null_or_parsed (formData (run evs initialState)).
Proof.
  intros Hevs. apply run_keeps_prices; [exact Hevs | exact initial_prices].
Qed.

(** The theorem applied to a session that enters two prices. *)
Lemma sharingPrices_keys_and_values_witness :
  Forall (fun ev => from_form ev = true)
    [SharingPriceChange "3" (js "4500"); SharingPriceChange "3" []] /\
  five_keys (formData (run [SharingPriceChange "3" (js "4500");
                            SharingPriceChange "3" []] initialState)) /\
  prices_null_or_parsed
    (formData (run [SharingPriceChange "3" (js "4500");
                    SharingPriceChange "3" []] initialState)).
Proof.
  assert (Forall (fun ev => from_form ev = true)
            [SharingPriceChange "3" (js "4500"); SharingPriceChange "3" []])
    as Hevs by (repeat constructor).
  split; [exact Hevs |].
  apply (sharingPrices_keys_and_values
           [SharingPriceChange "3" (js "4500"); SharingPriceChange "3" []]
           Hevs).
Defined.

(** Entering "-5" for single occupancy stores the number -5, which is
    not a non-negative integer amount. *)
Lemma negative_price_is_stored :
  ~ prices_nonneg_integers
      (formData (run [SharingPriceChange "1" (js "-5")] initialState)).
Proof.
  intros H. specialize (H "1"%string (of_Z (-5))).
  assert (nonneg_integer (of_Z (-5)) = false) as Hneg by reflexivity.
  rewrite H in Hneg; [discriminate |].
  vm_compute. reflexivity.
Qed.

End Sessions.

(* ===================================================================== *)
(** * Double-precision rounding                                           *)
(* ===================================================================== *)

(** What division, multiplication and [of_Z] return on the doubles the
    tracker meets, derived from the definitions of [SpecFloat]: each
    result is within half a unit in the last place of the exact value. *)
Module Rounding.
Import JS Spec ProgressTracker.

Lemma locates_shr_1 A D mrs :
  locates A D mrs -> locates A (2 * D) (shr_1 mrs).
Proof.
  destruct mrs as [m r s]. unfold locates. simpl.
  intros (HD & Hm & H).
  destruct m as [| [p | p |] | p]; try lia;
    destruct r, s; simpl in *; lia.
Qed.

Lemma locates_iter A p : forall D mrs,
  locates A D mrs -> locates A (2 ^ Z.pos p * D) (SpecFloat.iter_pos shr_1 p mrs).
Proof.
  induction p as [p IH | p IH |]; intros D mrs H; simpl SpecFloat.iter_pos.
  - apply locates_shr_1 in H. apply IH in H. apply IH in H.
    replace (2 ^ Z.pos p~1 * D) with (2 ^ Z.pos p * (2 ^ Z.pos p * (2 * D)));
      [exact H |].
    replace (Z.pos p~1) with (Z.pos p + Z.pos p + 1) by lia.
    rewrite !Z.pow_add_r by lia. ring.
  - apply IH in H. apply IH in H.
    replace (2 ^ Z.pos p~0 * D) with (2 ^ Z.pos p * (2 ^ Z.pos p * D));
      [exact H |].
    replace (Z.pos p~0) with (Z.pos p + Z.pos p) by lia.
    rewrite !Z.pow_add_r by lia. ring.
  - apply locates_shr_1 in H. exact H.
Qed.

Lemma locates_shr A D mrs e n :
  0 <= n -> locates A D mrs ->
  locates A (2 ^ n * D) (fst (shr mrs e n)) /\ snd (shr mrs e n) = e + n.
Proof.
  intros Hn H. destruct n as [| p | p]; [| | lia].
  - unfold shr. cbn [fst snd]. rewrite Z.pow_0_r, Z.mul_1_l, Z.add_0_r.
    split; [exact H | reflexivity].
  - unfold shr. cbn [fst snd]. split; [| reflexivity].
    apply locates_iter. exact H.
Qed.

Lemma digits2_size p : digits2_pos p = Pos.size p.
Proof. induction p; simpl; congruence. Qed.

Lemma digits2_bounds p :
  2 ^ (Z.pos (digits2_pos p) - 1) <= Z.pos p < 2 ^ Z.pos (digits2_pos p).
Proof.
  rewrite digits2_size. split.
  - pose proof (Pos.size_le p) as H.
    assert (Z.pos (2 ^ Pos.size p) <= Z.pos p~0) as H' by exact H.
    rewrite Pos2Z.inj_pow in H'.
    replace (Z.pos (Pos.size p)) with (Z.pos (Pos.size p) - 1 + 1) in H' by lia.
    rewrite Z.pow_add_r in H' by lia. lia.
  - pose proof (Pos.size_gt p) as H.
    assert (Z.pos p < Z.pos (2 ^ Pos.size p)) as H' by exact H.
    rewrite Pos2Z.inj_pow in H'. exact H'.
Qed.

Lemma digits2_unique p d :
  2 ^ (d - 1) <= Z.pos p < 2 ^ d -> Z.pos (digits2_pos p) = d.
Proof.
  intros [Hlo Hhi]. pose proof (digits2_bounds p) as [Hlo' Hhi'].
  assert (0 < d) as Hd.
  { destruct (Z.ltb_spec 0 d); [assumption |].
    exfalso. assert (2 ^ d <= 2 ^ 0) by (apply Z.pow_le_mono_r; lia).
    simpl in *. lia. }
  destruct (Z.lt_trichotomy (Z.pos (digits2_pos p)) d) as [H | [H | H]];
    [| exact H |].
  - assert (2 ^ Z.pos (digits2_pos p) <= 2 ^ (d - 1))
      by (apply Z.pow_le_mono_r; lia). lia.
  - assert (2 ^ d <= 2 ^ (Z.pos (digits2_pos p) - 1))
      by (apply Z.pow_le_mono_r; lia). lia.
Qed.

Lemma round_nearest_even_near A D mrs :
  locates A D mrs ->
  let N := round_nearest_even (shr_m mrs) (loc_of_shr_record mrs) in
  shr_m mrs <= N <= shr_m mrs + 1 /\ 2 * Z.abs (N * D - A) <= D.
Proof.
  destruct mrs as [m r s]. unfold locates. simpl.
  intros (HD & Hm & H).
  destruct r, s; simpl in *; try destruct (Z.even m); lia.
Qed.

Lemma locates_between A D mrs :
  locates A D mrs -> shr_m mrs * D <= A < (shr_m mrs + 1) * D.
Proof.
  destruct mrs as [m r s]. unfold locates. simpl.
  intros (HD & Hm & H). destruct r, s; lia.
Qed.

Lemma fexp_normal e : -1021 <= e -> fexp prec emax e = e - 53.
Proof. unfold fexp, SpecFloat.emin, prec, emax. lia. Qed.

Lemma shr_record_of_loc_m m l : shr_m (shr_record_of_loc m l) = m.
Proof. destruct l as [| []]; reflexivity. Qed.

Lemma pow2_pos n : 0 <= n -> 0 < 2 ^ n.
Proof. intros. apply Z.pow_pos_nonneg; lia. Qed.

Lemma binary_round_aux_near s mx ex lx A D n :
  0 < mx -> n = Zdigits2 mx - 53 -> 0 <= n ->
  -1074 <= ex + n -> ex + n + 1 <= 971 ->
  locates A D (shr_record_of_loc mx lx) ->
  exists m e,
    binary_round_aux prec emax s mx ex lx = S754_finite s m e /\
    2 ^ 52 <= Z.pos m < 2 ^ 53 /\
    ex + n <= e <= ex + n + 1 /\
    2 * Z.abs (Z.pos m * 2 ^ (e - ex) * D - A) <= 2 ^ n * D.
Proof.
  intros Hmx Hn Hn0 Hlo Hhi Hloc.
  unfold binary_round_aux, shr_fexp.
  rewrite fexp_normal by lia.
  replace (Zdigits2 mx + ex - 53 - ex) with n by lia.
  pose proof (locates_shr A D (shr_record_of_loc mx lx) ex n Hn0 Hloc)
    as [Hloc1 He1].
  destruct (shr (shr_record_of_loc mx lx) ex n) as [mrs1 e1].
  simpl in Hloc1, He1. subst e1.
  pose proof (round_nearest_even_near _ _ _ Hloc1) as [HN Herr].
  set (N := round_nearest_even (shr_m mrs1) (loc_of_shr_record mrs1)) in *.
  pose proof (locates_between _ _ _ Hloc) as Hb0.
  rewrite shr_record_of_loc_m in Hb0.
  pose proof (locates_between _ _ _ Hloc1) as Hb1.
  assert (0 < D) as HD by apply Hloc.
  pose proof (pow2_pos n Hn0) as Hpn.
  destruct mx as [| px |]; try lia.
  pose proof (digits2_bounds px) as Hdig. simpl in Hn.
  replace (Z.pos (digits2_pos px)) with (53 + n) in Hdig by lia.
  replace (53 + n - 1) with (52 + n) in Hdig by lia.
  rewrite !Z.pow_add_r in Hdig by lia.
  assert (2 ^ 52 <= shr_m mrs1 < 2 ^ 53) as Hm1.
  { split.
    - assert (Z.pos px * D < (shr_m mrs1 + 1) * (2 ^ n * D)) as H1 by lia.
      assert (2 ^ 52 * (2 ^ n * D) < (shr_m mrs1 + 1) * (2 ^ n * D)) as H2
        by nia.
      apply Z.mul_lt_mono_pos_r in H2; [lia | nia].
    - assert (shr_m mrs1 * (2 ^ n * D) < (Z.pos px + 1) * D) as H1 by lia.
      assert (shr_m mrs1 * (2 ^ n * D) < 2 ^ 53 * (2 ^ n * D)) as H2 by nia.
      apply Z.mul_lt_mono_pos_r in H2; [lia | nia]. }
  assert (N < 2 ^ 53 \/ N = 2 ^ 53) as [HN53 | HN53] by lia.
  - destruct N as [| pN |] eqn:EN; try lia.
    assert (Zdigits2 (Z.pos pN) = 53) as Hd
      by (apply digits2_unique; lia).
    rewrite Hd, fexp_normal by lia.
    replace (53 + (ex + n) - 53 - (ex + n)) with 0 by lia.
    simpl shr. cbn iota beta. simpl shr_m.
    replace (ex + n <=? emax - prec) with true
      by (symmetry; apply Z.leb_le; unfold emax, prec; lia).
    exists pN, (ex + n). split; [reflexivity |].
    split; [lia |]. split; [lia |].
    replace (ex + n - ex) with n by lia. 
    replace (Z.pos pN * 2 ^ n * D) with (Z.pos pN * (2 ^ n * D)) by ring.
    exact Herr.
  - rewrite HN53 in *.
    change (Zdigits2 (2 ^ 53)) with 54.
    rewrite fexp_normal by lia.
    replace (54 + (ex + n) - 53 - (ex + n)) with 1 by lia.
    simpl shr. cbn iota beta. simpl shr_m.
    replace (ex + n + 1 <=? emax - prec) with true
      by (symmetry; apply Z.leb_le; unfold emax, prec; lia).
    exists (4503599627370496)%positive, (ex + n + 1).
    split; [reflexivity |].
    split; [split; [reflexivity | reflexivity] |]. split; [lia |].
    replace (ex + n + 1 - ex) with (n + 1) by lia.
    rewrite Z.pow_add_r by lia.
    replace (4503599627370496 * (2 ^ n * 2 ^ 1) * D) with (2 ^ 53 * (2 ^ n * D))
      by (change (2 ^ 53) with (4503599627370496 * 2 ^ 1); ring).
    exact Herr.
Qed.

Lemma iter_xO p k : Z.pos (Pos.iter xO p k) = Z.pos p * 2 ^ Z.pos k.
Proof.
  induction k as [| k IH] using Pos.peano_ind.
  - simpl. lia.
  - rewrite Pos.iter_succ, Pos2Z.inj_succ, Z.pow_succ_r by lia. lia.
Qed.

Lemma locates_exact m : 0 <= m -> locates m 1 (shr_record_of_loc m loc_Exact).
Proof. intros H. unfold locates. simpl. lia. Qed.

(** Normal form of an integer below 2^53 as a double. *)
Lemma binary_round_int s p :
  Z.pos p < 2 ^ 53 ->
  exists m e,
    binary_round prec emax s p 0 = S754_finite s m e /\
    2 ^ 52 <= Z.pos m < 2 ^ 53 /\ -52 <= e <= 0 /\
    Z.pos m = Z.pos p * 2 ^ (- e).
Proof.
  intros Hp. unfold binary_round.
  pose proof (digits2_bounds p) as Hd.
  set (d := Z.pos (digits2_pos p)) in *.
  assert (1 <= d <= 53) as Hd53.
  { split; [unfold d; lia |].
    destruct (Z.leb_spec d 53) as [H | H]; [exact H |].
    assert (2 ^ 53 <= 2 ^ (d - 1)) by (apply Z.pow_le_mono_r; lia). lia. }
  rewrite Z.add_0_r, fexp_normal by lia.
  assert (exists mz, shl_align p 0 (d - 53) = (mz, d - 53) /\
                     Z.pos mz = Z.pos p * 2 ^ (53 - d)) as (mz & -> & Hmz).
  { unfold shl_align. rewrite Z.sub_0_r.
    destruct (d - 53) as [| k | k] eqn:Ek; try lia.
    - exists p. split; [reflexivity |].
      replace (53 - d) with 0 by lia. lia.
    - exists (Pos.iter xO p k). split; [reflexivity |].
      rewrite iter_xO. replace (53 - d) with (Z.pos k) by lia. reflexivity. }
  assert (2 ^ 52 <= Z.pos mz < 2 ^ 53) as Hmzb.
  { rewrite Hmz.
    replace (2 ^ 52) with (2 ^ (d - 1) * 2 ^ (53 - d))
      by (rewrite <- Z.pow_add_r by lia; f_equal; lia).
    replace (2 ^ 53) with (2 ^ d * 2 ^ (53 - d))
      by (rewrite <- Z.pow_add_r by lia; f_equal; lia).
    pose proof (pow2_pos (53 - d)). nia. }
  destruct (binary_round_aux_near s (Z.pos mz) (d - 53) loc_Exact
              (Z.pos mz) 1 0) as (m & e & Hr & Hm & He & Herr).
  - lia.
  - simpl. rewrite (digits2_unique mz 53); lia.
  - lia.
  - lia.
  - lia.
  - apply locates_exact. lia.
  - exists m, e. split; [exact Hr |]. split; [exact Hm |].
    assert (e = d - 53) as ->.
    { destruct (Z.eq_dec e (d - 53)) as [E | E]; [exact E |].
      replace (e - (d - 53)) with 1 in Herr by lia. simpl in Herr. lia. }
    split; [lia |].
    replace (d - 53 - (d - 53)) with 0 in Herr by lia. simpl in Herr.
    replace (- (d - 53)) with (53 - d) by lia. lia.
Qed.

Lemma int_value_finite s m e z :
  e <= 0 -> Z.pos m = Z.abs z * 2 ^ (- e) -> s = (z <? 0) ->
  int_value (S754_finite s m e) = Some z.
Proof.
  intros He Hm Hs. unfold int_value.
  set (v := if s then Z.neg m else Z.pos m).
  assert (v = z * 2 ^ (- e)) as Hv.
  { unfold v. subst s. destruct (Z.ltb_spec z 0); lia. }
  pose proof (pow2_pos (- e)).
  destruct (Z.leb_spec 0 e) as [H0 | H0].
  - replace e with 0 in * by lia. simpl in *. f_equal. lia.
  - rewrite Hv, Z.mod_mul, Z.div_mul by lia. reflexivity.
Qed.

(** The double made of an integer below 2^53 denotes that integer. *)
Lemma int_value_normalize z sz :
  Z.abs z < 2 ^ 53 -> int_value (binary_normalize prec emax z 0 sz) = Some z.
Proof.
  intros Hz. destruct z as [| p | p]; simpl binary_normalize.
  - reflexivity.
  - destruct (binary_round_int false p) as (m & e & -> & _ & He & Hm); [lia |].
    apply int_value_finite; [lia | exact Hm | reflexivity].
  - destruct (binary_round_int true p) as (m & e & -> & _ & He & Hm); [lia |].
    apply int_value_finite; [lia | exact Hm | reflexivity].
Qed.

Lemma new_location_locates D q r :
  0 < D -> 0 <= q -> 0 <= r < D ->
  locates (D * q + r) D (shr_record_of_loc q (new_location D r)).
Proof.
  intros HD Hq Hr. unfold new_location, new_location_even, new_location_odd.
  destruct (Z.even D) eqn:Ev.
  - destruct (Z.eqb_spec r 0) as [-> | Hne].
    + unfold locates. simpl. lia.
    + destruct (Z.compare_spec (2 * r) D); unfold locates; simpl; lia.
  - destruct (Z.eqb_spec r 0) as [-> | Hne].
    + unfold locates. simpl. lia.
    + assert (2 * r <> D) as Hodd.
      { intros E. rewrite <- E, Z.even_mul in Ev. discriminate. }
      destruct (Z.compare_spec (2 * r + 1) D); unfold locates; simpl; lia.
Qed.

Lemma SFdiv_core_normal mx ex my ey :
  2 ^ 52 <= Z.pos mx < 2 ^ 53 -> 2 ^ 52 <= Z.pos my < 2 ^ 53 ->
  -52 <= ex <= 0 -> -52 <= ey <= 0 ->
  SFdiv_core_binary prec emax (Z.pos mx) ex (Z.pos my) ey =
  (Z.pos mx * 2 ^ 53 / Z.pos my, ex - ey - 53,
   new_location (Z.pos my) (Z.pos mx * 2 ^ 53 mod Z.pos my)).
Proof.
  intros Hmx Hmy Hex Hey. unfold SFdiv_core_binary.
  cbn [Zdigits2].
  rewrite (digits2_unique mx 53), (digits2_unique my 53) by lia.
  replace (53 + ex - (53 + ey)) with (ex - ey) by lia.
  rewrite fexp_normal by lia.
  rewrite Z.min_l by lia.
  replace (ex - ey - (ex - ey - 53)) with 53 by lia.
  cbv iota. rewrite Z.shiftl_mul_pow2 by lia.
  unfold Z.div, Z.modulo. destruct (Z.div_eucl _ _). reflexivity.
Qed.

(** The quotient of two positive integers as doubles. *)
Lemma div_near s mx ex my ey a t :
  0 < a < 2 ^ 42 -> 0 < t < 2 ^ 53 ->
  2 ^ 52 <= Z.pos mx < 2 ^ 53 -> -52 <= ex <= 0 -> Z.pos mx = a * 2 ^ (- ex) ->
  2 ^ 52 <= Z.pos my < 2 ^ 53 -> -52 <= ey <= 0 -> Z.pos my = t * 2 ^ (- ey) ->
  exists mq eq,
    div (S754_finite s mx ex) (S754_finite false my ey) = S754_finite s mq eq /\
    2 ^ 52 <= Z.pos mq < 2 ^ 53 /\ -107 <= eq < 0 /\
    2 * Z.abs (Z.pos mq * t - a * 2 ^ (- eq)) <= t.
Proof.
  intros Ha Ht Hmx Hex Emx Hmy Hey Emy.
  unfold div, SFdiv. rewrite SFdiv_core_normal by assumption.
  rewrite xorb_false_r.
  set (A := Z.pos mx * 2 ^ 53). set (D := Z.pos my).
  assert (0 < D) as HD by (unfold D; lia).
  pose proof (Z.div_mod A D ltac:(lia)) as Hdm.
  pose proof (Z.mod_pos_bound A D HD) as Hr.
  assert (2 ^ 52 <= A / D < 2 ^ 54) as Hq.
  { split.
    - apply Z.div_le_lower_bound; [exact HD |]. unfold A, D. nia.
    - apply Z.div_lt_upper_bound; [exact HD |]. unfold A, D. nia. }
  assert (-11 >= ex) as Hex'.
  { destruct (Z.leb_spec ex (-11)); [lia |]. exfalso.
    assert (2 ^ (- ex) <= 2 ^ 10) by (apply Z.pow_le_mono_r; lia). nia. }
  destruct (A / D) as [| pq |] eqn:Eq; try lia.
  pose proof (digits2_bounds pq) as Hdq.
  set (dq := Z.pos (digits2_pos pq)) in *.
  assert (53 <= dq <= 54) as Hdq'.
  { split.
    - destruct (Z.leb_spec 53 dq); [lia |]. exfalso.
      assert (2 ^ dq <= 2 ^ 52) by (apply Z.pow_le_mono_r; lia). lia.
    - destruct (Z.leb_spec dq 54); [lia |]. exfalso.
      assert (2 ^ 54 <= 2 ^ (dq - 1)) by (apply Z.pow_le_mono_r; lia). lia. }
  destruct (binary_round_aux_near s (Z.pos pq) (ex - ey - 53)
              (new_location D (A mod D)) A D (dq - 53))
    as (mq & eq & Hres & Hmq & Heq & Herr).
  - lia.
  - reflexivity.
  - lia.
  - lia.
  - lia.
  - replace A with (D * Z.pos pq + A mod D) at 1 by lia.
    apply new_location_locates; lia.
  - exists mq, eq. split; [exact Hres |]. split; [exact Hmq |].
    split; [lia |].
    set (n := dq - 53) in *. set (g := eq - (ex - ey - 53)) in *.
    assert (0 <= n <= g) as Hng by (unfold g; lia).
    assert (- ex + 53 = - eq + g + - ey) as Hsplit by (unfold g; lia).
    assert (A = a * 2 ^ (- eq) * 2 ^ g * 2 ^ (- ey)) as EA.
    { unfold A. rewrite Emx.
      rewrite <- !Z.mul_assoc, <- !Z.pow_add_r by lia.
      f_equal. f_equal. lia. }
    assert (2 ^ n <= 2 ^ g) as Hpow by (apply Z.pow_le_mono_r; lia).
    pose proof (pow2_pos g ltac:(lia)) as Hg.
    pose proof (pow2_pos (- ey) ltac:(lia)) as Hey'.
    unfold D in Herr. rewrite EA, Emy in Herr.
    set (W := Z.pos mq * t - a * 2 ^ (- eq)).
    replace (Z.pos mq * 2 ^ g * (t * 2 ^ (- ey))
             - a * 2 ^ (- eq) * 2 ^ g * 2 ^ (- ey))
      with (W * (2 ^ g * 2 ^ (- ey))) in Herr by (unfold W; ring).
    assert (0 < 2 ^ g * 2 ^ (- ey)) as Hpos
      by (apply Z.mul_pos_pos; assumption).
    rewrite Z.abs_mul, (Z.abs_eq (2 ^ g * 2 ^ (- ey))) in Herr
      by (apply Z.lt_le_incl; exact Hpos).
    assert (2 ^ n * (t * 2 ^ (- ey)) <= 2 ^ g * (t * 2 ^ (- ey))) as H1.
    { apply Z.mul_le_mono_nonneg_r; [| exact Hpow].
      apply Z.mul_nonneg_nonneg; lia. }
    assert (2 * Z.abs W * (2 ^ g * 2 ^ (- ey)) <= t * (2 ^ g * 2 ^ (- ey)))
      as H2 by (clear - Herr H1; lia).
    apply Z.mul_le_mono_pos_r in H2; [exact H2 | exact Hpos].
Qed.

(** A double times one hundred. *)
Lemma mul_100_near s mq eq :
  2 ^ 52 <= Z.pos mq < 2 ^ 53 -> -107 <= eq < 0 ->
  exists mp ep,
    mul (S754_finite s mq eq) (of_Z 100) = S754_finite s mp ep /\
    2 ^ 52 <= Z.pos mp < 2 ^ 53 /\ 6 <= ep - eq <= 8 /\
    2 * Z.abs (Z.pos mp * 2 ^ (ep - eq) - 100 * Z.pos mq) <= 2 ^ (ep - eq).
Proof.
  intros Hmq Heq.
  change (of_Z 100) with (S754_finite false 7036874417766400 (-46)).
  unfold mul, SFmul. rewrite xorb_false_r.
  set (M := (mq * 7036874417766400)%positive).
  assert (Z.pos M = Z.pos mq * (100 * 2 ^ 46)) as EM by (unfold M; lia).
  assert (2 ^ 104 <= Z.pos M < 2 ^ 106) as HM by lia.
  pose proof (digits2_bounds M) as Hd.
  set (d := Z.pos (digits2_pos M)) in *.
  assert (105 <= d <= 106) as Hd'.
  { split.
    - destruct (Z.leb_spec 105 d); [lia |]. exfalso.
      assert (2 ^ d <= 2 ^ 104) by (apply Z.pow_le_mono_r; lia). lia.
    - destruct (Z.leb_spec d 106); [lia |]. exfalso.
      assert (2 ^ 106 <= 2 ^ (d - 1)) by (apply Z.pow_le_mono_r; lia). lia. }
  destruct (binary_round_aux_near s (Z.pos M) (eq + -46) loc_Exact
              (Z.pos M) 1 (d - 53)) as (mp & ep & Hres & Hmp & Hep & Herr).
  - lia.
  - reflexivity.
  - lia.
  - lia.
  - lia.
  - apply locates_exact. lia.
  - exists mp, ep. split; [exact Hres |]. split; [exact Hmp |].
    split; [lia |].
    set (g := ep - eq) in *.
    replace (ep - (eq + -46)) with (g + 46) in Herr by (unfold g; lia).
    assert (2 ^ (d - 53) <= 2 ^ (g + 46)) as Hpow
      by (apply Z.pow_le_mono_r; unfold g; lia).
    rewrite Z.pow_add_r in Herr, Hpow by (unfold g; lia).
    pose proof (pow2_pos g ltac:(unfold g; lia)) as Hg.
    rewrite EM in Herr.
    set (U := Z.pos mp * 2 ^ g - 100 * Z.pos mq).
    replace (Z.pos mp * (2 ^ g * 2 ^ 46) * 1 - Z.pos mq * (100 * 2 ^ 46))
      with (U * 2 ^ 46) in Herr by (unfold U; ring).
    rewrite Z.abs_mul, (Z.abs_eq (2 ^ 46)) in Herr by lia.
    assert (2 * Z.abs U * 2 ^ 46 <= 2 ^ g * 2 ^ 46) as H2 by lia.
    apply Z.mul_le_mono_pos_r in H2; [exact H2 | lia].
Qed.

Lemma of_Z_normal c :
  c <> 0 -> Z.abs c < 2 ^ 53 ->
  exists m e,
    of_Z c = S754_finite (c <? 0) m e /\
    2 ^ 52 <= Z.pos m < 2 ^ 53 /\ -52 <= e <= 0 /\
    Z.pos m = Z.abs c * 2 ^ (- e).
Proof.
  intros Hc Hb. unfold of_Z. destruct c as [| p | p]; [lia | |];
    simpl binary_normalize; apply binary_round_int; lia.
Qed.

(** Rounding [v / 2^K] to the nearest integer, when [v * t] is within
    half of [2^K] of [100 * c * 2^K], lands within half of [t] of
    [100 * c]. *)
Lemma round_near_ratio v K c t :
  0 < t -> 0 <= K ->
  2 * Z.abs (v * t - 100 * c * 2 ^ K) < 2 ^ K ->
  2 * Z.abs ((2 * v + 2 ^ K) / 2 ^ (K + 1) * t - 100 * c) <= t.
Proof.
  intros Ht HK HW.
  pose proof (pow2_pos K HK) as HpK.
  rewrite Z.pow_add_r by lia. change (2 ^ 1) with 2.
  set (P := 2 ^ K) in *.
  set (R := (2 * v + P) / (P * 2)).
  pose proof (Z.div_mod (2 * v + P) (P * 2) ltac:(lia)) as Hdm.
  pose proof (Z.mod_pos_bound (2 * v + P) (P * 2) ltac:(lia)) as Hr.
  fold R in Hdm.
  set (W := v * t - 100 * c * P) in *.
  assert (P * (2 * R - 1) <= 2 * v < P * (2 * R + 1)) as Hfl by lia.
  assert (P * ((2 * R - 1) * t - 200 * c) <= 2 * W) as Hup by (unfold W; nia).
  assert (2 * W < P * ((2 * R + 1) * t - 200 * c)) as Hdn by (unfold W; nia).
  assert ((2 * R - 1) * t - 200 * c <= 0) as H1.
  { destruct (Z.leb_spec ((2 * R - 1) * t - 200 * c) 0); [assumption |].
    exfalso. assert (P * 1 <= P * ((2 * R - 1) * t - 200 * c)) by nia. lia. }
  assert (0 <= (2 * R + 1) * t - 200 * c) as H2.
  { destruct (Z.leb_spec 0 ((2 * R + 1) * t - 200 * c)); [assumption |].
    exfalso. assert (P * ((2 * R + 1) * t - 200 * c) <= P * (-1)) by nia. lia. }
  lia.
Qed.

Lemma round_bound v P :
  Z.abs v < 2 ^ 53 -> 2 <= P -> Z.abs ((2 * v + P) / (P * 2)) < 2 ^ 53.
Proof.
  intros Hv HP. apply Z.abs_lt. split.
  - apply Z.lt_le_trans with (- 2 ^ 52); [lia |].
    apply Z.div_le_lower_bound; lia.
  - apply Z.div_lt_upper_bound; lia.
Qed.

(** For whole steps, [progress] is an integer nearest to
    [100 * currentStep / totalSteps]. *)
Lemma progress_nearest c t :
  1 <= t < 2 ^ 53 -> Z.abs c < 2 ^ 42 ->
  exists p,
    int_value (progress (of_Z c) (of_Z t)) = Some p /\
    2 * Z.abs (p * t - 100 * c) <= t.
Proof.
  intros Ht Hc. unfold progress.
  destruct (of_Z_normal t) as (my & ey & -> & Hmy & Hey & Emy); [lia | lia |].
  replace (t <? 0) with false by (symmetry; apply Z.ltb_ge; lia).
  rewrite Z.abs_eq in Emy by lia.
  destruct (Z.eq_dec c 0) as [-> | Hc0].
  { exists 0. split; [reflexivity | lia]. }
  destruct (of_Z_normal c) as (mx & ex & -> & Hmx & Hex & Emx); [lia | lia |].
  set (s := c <? 0). set (a := Z.abs c) in *.
  destruct (div_near s mx ex my ey a t) as (mq & eq & -> & Hmq & Heq & F1);
    try assumption; try lia.
  destruct (mul_100_near s mq eq) as (mp & ep & -> & Hmp & Hep & F2);
    try assumption.
  set (g := ep - eq) in *. set (E := - eq) in *.
  pose proof (pow2_pos g ltac:(lia)) as Hg.
  pose proof (pow2_pos E ltac:(unfold E; lia)) as HE.
  assert (2 ^ g <= 2 ^ 8) as Hg8 by (apply Z.pow_le_mono_r; lia).
  (* the two rounding errors together *)
  set (U := Z.pos mp * 2 ^ g - 100 * Z.pos mq) in *.
  set (V := Z.pos mq * t - a * 2 ^ E) in *.
  assert (Z.pos mp * 2 ^ g * t - 100 * a * 2 ^ E = U * t + 100 * V) as EUV
    by (unfold U, V; ring).
  assert (2 * Z.abs (U * t) <= 2 ^ g * t) as HU.
  { rewrite Z.abs_mul, (Z.abs_eq t), Z.mul_assoc by lia.
    apply Z.mul_le_mono_nonneg_r; lia. }
  assert (2 ^ g * t <= 256 * t) as Hgt
    by (apply Z.mul_le_mono_nonneg_r; [lia | exact Hg8]).
  assert (2 * Z.abs (Z.pos mp * 2 ^ g * t - 100 * a * 2 ^ E) <= 356 * t) as F12.
  { rewrite EUV. pose proof (Z.abs_triangle (U * t) (100 * V)) as Htri.
    rewrite (Z.abs_mul 100 V) in Htri. change (Z.abs 100) with 100 in Htri.
    lia. }
  (* the exponent of the quotient is small *)
  assert (1023 * t < 2 ^ E) as F3.
  { assert (2 ^ 52 * t <= Z.pos mq * t) as H1
      by (apply Z.mul_le_mono_nonneg_r; lia).
    assert (a * 2 ^ E < 2 ^ 42 * 2 ^ E) as H2
      by (apply Z.mul_lt_mono_pos_r; lia).
    unfold V in F1. lia. }
  assert (10 <= E) as HE10.
  { destruct (Z.leb_spec 10 E); [assumption |]. exfalso.
    assert (2 ^ E <= 2 ^ 9) by (apply Z.pow_le_mono_r; lia). lia. }
  assert (ep < 0) as Hep0 by (unfold g, E in *; lia).
  unfold Math_round.
  replace (0 <=? ep) with false by (symmetry; apply Z.leb_gt; exact Hep0).
  set (v := if s then Z.neg mp else Z.pos mp).
  set (K := - ep).
  assert (E = g + K) as EK by (unfold E, g, K; lia).
  pose proof (pow2_pos K ltac:(unfold K; lia)) as HK.
  assert (2 ^ E = 2 ^ g * 2 ^ K) as EP
    by (rewrite EK; apply Z.pow_add_r; unfold K; lia).
  assert (2 * Z.abs (v * t - 100 * c * 2 ^ K) < 2 ^ K) as HW.
  { assert (Z.abs (v * t - 100 * c * 2 ^ K) * 2 ^ g
            = Z.abs (Z.pos mp * 2 ^ g * t - 100 * a * 2 ^ E)) as EW.
    { rewrite <- (Z.abs_eq (2 ^ g)) at 1 by lia. rewrite <- Z.abs_mul.
      rewrite EP. unfold v, s, a.
      destruct (Z.ltb_spec c 0).
      - rewrite (Z.abs_neq c) by lia.
        rewrite <- Z.abs_opp. f_equal. 
        change (Z.neg mp) with (- Z.pos mp). ring.
      - rewrite (Z.abs_eq c) by lia. f_equal. ring. }
    assert (2 * Z.abs (v * t - 100 * c * 2 ^ K) * 2 ^ g < 2 ^ K * 2 ^ g) as Hlt
      by lia.
    apply Z.mul_lt_mono_pos_r in Hlt; [exact Hlt | exact Hg]. }
  set (R := (2 * v + 2 ^ K) / 2 ^ (K + 1)).
  exists R. split.
  - apply int_value_normalize.
    unfold R. rewrite Z.pow_add_r by (unfold K; lia). change (2 ^ 1) with 2.
    assert (Z.abs v < 2 ^ 53) as Hv
      by (clear - Hmp; unfold v; destruct s; lia).
    assert (2 <= 2 ^ K) as HK2.
    { change 2 with (2 ^ 1) at 1. apply Z.pow_le_mono_r; unfold K; lia. }
    apply round_bound; assumption.
  - apply round_near_ratio; [lia | unfold K; lia | exact HW].
Qed.

End Rounding.

(* ===================================================================== *)
(** * The progress tracker: percentage and markers                        *)
(* ===================================================================== *)

Module Tracker.
Import JS Spec ProgressTracker Rounding.

Lemma SFcompare_swap x y :
  SFcompare y x = option_map CompOpp (SFcompare x y).
Proof.
  destruct x as [sx | sx | | sx mx ex], y as [sy | sy | | sy my ey];
    try reflexivity;
    try (destruct sx; reflexivity);
    try (destruct sy; reflexivity);
    try (destruct sx, sy; reflexivity).
  pose proof (Pos.compare_cont_antisym mx my Eq) as Hm. simpl in Hm.
  destruct sx, sy; simpl; try reflexivity;
    rewrite (Z.compare_antisym ex ey), <- Hm;
    destruct (ex ?= ey); simpl; try reflexivity;
    destruct (Pos.compare_cont Eq mx my); reflexivity.
Qed.

(** The three stylings follow the three comparisons of JavaScript. *)
Lemma marker_style_cases index cs :
  (lt (index_number index) cs = true -> marker_style index cs = Completed) /\
  (strict_eq (index_number index) cs = true ->
   marker_style index cs = Current) /\
  (gt (index_number index) cs = true -> marker_style index cs = Pending).
Proof.
  unfold marker_style, lt, gt, strict_eq, SFltb, SFeqb.
  rewrite (SFcompare_swap (index_number index) cs).
  destruct (SFcompare (index_number index) cs) as [[] |]; simpl;
    repeat split; intros; congruence.
Qed.

Lemma render_header p :
  header (render p) =
  match default [] (labels p) with
  | [] => Fallback [Text "Start";
                    Percent (progress (currentStep p) (totalSteps p));
                    Text "Complete"]
  | _ :: _ => Markers (imap (render_marker (currentStep p))
                         (default [] (labels p)))
  end.
Proof. unfold render. destruct (default [] (labels p)); reflexivity. Qed.

Lemma progress_spec_unique c t p :
  0 < t -> 2 * Z.abs (p * t - 100 * c) <= t ->
  (200 * c + t) mod (2 * t) <> 0 -> p = progress_spec c t.
Proof.
  intros Ht Hp Htie. unfold progress_spec.
  apply (Z.div_unique _ _ p (200 * c + t - 2 * t * p)); [| lia].
  left. split; [lia |].
  destruct (Z.eq_dec (200 * c + t - 2 * t * p) (2 * t)) as [E | E]; [| lia].
  exfalso. apply Htie.
  replace (200 * c + t) with ((p + 1) * (2 * t)) by lia.
  apply Z.mod_mul. lia.
Qed.

(** C8, as the code has it.  For whole steps (a total of at least one
    and below 2^53, a current step below 2^42 in size) the percentage
    [Math.round((currentStep / totalSteps) * 100)] is an integer
    nearest to [100 * currentStep / totalSteps]; it is
    [round(100 * currentStep / totalSteps)] unless that quotient lies
    exactly halfway between two integers; steps 2 of 4 give 50.  When
    labels are supplied, the marker at an index is styled completed
    when index < currentStep, current when index === currentStep and
    pending when index > currentStep, and the percentage is printed
    exactly when there are no labels. *)
Theorem progress_nearest_and_markers (c t : Z) :
  1 <= t < 2 ^ 53 -> Z.abs c < 2 ^ 42 ->
  (exists p,
     int_value (progress (of_Z c) (of_Z t)) = Some p /\
     2 * Z.abs (p * t - 100 * c) <= t /\
     ((200 * c + t) mod (2 * t) <> 0 -> p = progress_spec c t)) /\
  progress (of_Z 2) (of_Z 4) = of_Z 50 /\
  (forall (props : Props) (i : nat) (label : string),
     default [] (labels props) !! i = Some label ->
     exists ms m,
       header (render props) = Markers ms /\ ms !! i = Some m /\
       label_text m = label /\ circle_text m = (i + 1)%nat /\
       (lt (index_number i) (currentStep props) = true ->
        circle m = Completed) /\
       (strict_eq (index_number i) (currentStep props) = true ->
        circle m = Current) /\
       (gt (index_number i) (currentStep props) = true ->
        circle m = Pending)) /\
  (forall props : Props,
     (shows_percent (header (render props)) = true <->
      default [] (labels props) = []) /\
     (default [] (labels props) = [] ->
      header (render props) =
        Fallback [Text "Start";
                  Percent (progress (currentStep props) (totalSteps props));
                  Text "Complete"]) /\
     bar_value (render props)
       = progress (currentStep props) (totalSteps props)).
Proof.
  intros Ht Hc. split; [| split; [reflexivity | split]].
  - destruct (progress_nearest c t Ht Hc) as (p & Hp & Hnear).
    exists p. split; [exact Hp |]. split; [exact Hnear |].
    apply progress_spec_unique; [lia | exact Hnear].
  - intros props i label Hi. rewrite render_header.
    destruct (default [] (labels props)) as [| l0 ls] eqn:El;
      [rewrite lookup_nil in Hi; discriminate |].
    exists (imap (render_marker (currentStep props)) (l0 :: ls)),
      (render_marker (currentStep props) i label).
    split; [reflexivity |].
    split; [rewrite list_lookup_imap, Hi; reflexivity |].
    split; [reflexivity |]. split; [reflexivity |].
    apply marker_style_cases.
  - intros props. rewrite render_header.
    destruct (default [] (labels props)) as [| l0 ls] eqn:El.
    + split; [split; reflexivity |]. split; reflexivity.
    + split; [split; discriminate |]. split; [discriminate | reflexivity].
Qed.

(** The theorem applied to step 2 of 4. *)
Lemma progress_nearest_and_markers_witness :
  (1 <= 4 < 2 ^ 53 /\ Z.abs 2 < 2 ^ 42) /\
  exists p,
    int_value (progress (of_Z 2) (of_Z 4)) = Some p /\
    2 * Z.abs (p * 4 - 100 * 2) <= 4 /\
    ((200 * 2 + 4) mod (2 * 4) <> 0 -> p = progress_spec 2 4).
Proof.
  split; [lia |].
  apply (progress_nearest_and_markers 2 4); lia.
Defined.

(** Step 23 of 40: the quotient 0.575 times 100 is
    57.49999999999999 in doubles, so the tracker shows 57, while
    [100 * 23 / 40] is 57.5 and rounds to 58. *)
Lemma progress_23_of_40 :
  progress (of_Z 23) (of_Z 40) = of_Z 57 /\
  progress_spec 23 40 = 58 /\
  of_Z 57 <> of_Z 58.
Proof. split; [reflexivity |]. split; [reflexivity | discriminate]. Qed.

(** C10, as the code has it.  The percentage is not clamped: for whole
    steps, a current step above the total gives at least 100, and more
    than 100 once [100 * currentStep / totalSteps] passes 100.5; a
    negative current step gives at most zero, and less than zero once
    the quotient is below -0.5.  Steps 5 of 4 give 125 and -1 of 4
    give -25. *)
Theorem progress_not_clamped (c t : Z) :
  1 <= t < 2 ^ 53 -> Z.abs c < 2 ^ 42 ->
  (exists p,
     int_value (progress (of_Z c) (of_Z t)) = Some p /\
     (t < c -> 100 <= p) /\
     (201 * t < 200 * c -> 100 < p) /\
     (c < 0 -> p <= 0) /\
     (200 * c < - t -> p < 0)) /\
  progress (of_Z 5) (of_Z 4) = of_Z 125 /\
  progress (of_Z (-1)) (of_Z 4) = of_Z (-25).
Proof.
  intros Ht Hc. split; [| split; reflexivity].
  destruct (progress_nearest c t Ht Hc) as (p & Hp & Hnear).
  exists p. split; [exact Hp |].
  assert (- t <= 2 * (p * t) - 200 * c <= t) as Hb by lia.
  repeat split; intros H.
  - destruct (Z.leb_spec 100 p) as [| Hlt]; [assumption |]. exfalso.
    assert (p * t <= 99 * t) by (apply Z.mul_le_mono_nonneg_r; lia). lia.
  - destruct (Z.ltb_spec 100 p) as [| Hle]; [assumption |]. exfalso.
    assert (p * t <= 100 * t) by (apply Z.mul_le_mono_nonneg_r; lia). lia.
  - destruct (Z.leb_spec p 0) as [| Hlt]; [assumption |]. exfalso.
    assert (1 * t <= p * t) by (apply Z.mul_le_mono_nonneg_r; lia). lia.
  - destruct (Z.ltb_spec p 0) as [| Hle]; [assumption |]. exfalso.
    assert (0 * t <= p * t) by (apply Z.mul_le_mono_nonneg_r; lia). lia.
Qed.

(** The theorem applied to step 5 of 4. *)
Lemma progress_not_clamped_witness :
  (1 <= 4 < 2 ^ 53 /\ Z.abs 5 < 2 ^ 42) /\
  exists p,
    int_value (progress (of_Z 5) (of_Z 4)) = Some p /\
    (4 < 5 -> 100 <= p) /\
    (201 * 4 < 200 * 5 -> 100 < p) /\
    (5 < 0 -> p <= 0) /\
    (200 * 5 < - 4 -> p < 0).
Proof.
  split; [lia |].
  apply (progress_not_clamped 5 4); lia.
Defined.

(** Step 1001 of 1000 is above the total and shows 100; step -1 of
    1000 is negative and shows (negative) zero. *)
Lemma progress_1001_of_1000 :
  gt (of_Z 1001) (of_Z 1000) = true /\
  gt (progress (of_Z 1001) (of_Z 1000)) (of_Z 100) = false /\
  lt (of_Z (-1)) (S754_zero false) = true /\
  lt (progress (of_Z (-1)) (of_Z 1000)) (S754_zero false) = false.
Proof. repeat split; reflexivity. Qed.

End Tracker.

(* ===================================================================== *)
(** * Writing and reading fields                                          *)
(* ===================================================================== *)

Module Fields.
Import JS RegExp PGListingForm Spec Component Validation Handlers.

Lemma eqb_input_eq a b : eqb_input a b = true <-> a = b.
Proof. destruct a, b; simpl; split; congruence. Qed.

Lemma read_set_input fd name value other :
  read_input (set_input fd name value) other =
  if eqb_input name other then value else read_input fd other.
Proof. destruct fd, name, other; reflexivity. Qed.

Lemma set_input_frame fd name value :
  (forall r, read_radio (set_input fd name value) r = read_radio fd r) /\
  sharingPrices (set_input fd name value) = sharingPrices fd /\
  amenities (set_input fd name value) = amenities fd /\
  images (set_input fd name value) = images fd.
Proof.
  destruct fd, name; repeat split; intros r; destruct r; reflexivity.
Qed.

(** X1.  The input shows what was typed, and typing changes no other input,
    radio group, price, amenity or image, nor the mode or any effect. *)
Theorem handleInputChange_writes_one_field (name : InputName)
  (value : jsstring) (st : State) :
  read_input (formData (handleInputChange name value st)) name = value /\
  (forall other, other <> name ->
     read_input (formData (handleInputChange name value st)) other
       = read_input (formData st) other) /\
  (forall r,
     read_radio (formData (handleInputChange name value st)) r
       = read_radio (formData st) r) /\
  sharingPrices (formData (handleInputChange name value st))
    = sharingPrices (formData st) /\
  amenities (formData (handleInputChange name value st))
    = amenities (formData st) /\
  images (formData (handleInputChange name value st)) = images (formData st) /\
  same_outside_record st (handleInputChange name value st).
Proof.
  unfold handleInputChange, setFormData. cbn [formData].
  split.
  { rewrite read_set_input.
    replace (eqb_input name name) with true
      by (symmetry; apply eqb_input_eq; reflexivity).
    reflexivity. }
  split.
  { intros other Hne. rewrite read_set_input.
    destruct (eqb_input name other) eqn:E; [| reflexivity].
    apply eqb_input_eq in E. congruence. }
  destruct (set_input_frame (formData st) name value) as (Hr & Hp & Ha & Hi).
  repeat split; assumption.
Qed.

Lemma set_input_twice fd name v1 v2 :
  set_input (set_input fd name v1) name v2 = set_input fd name v2.
Proof. destruct fd, name; reflexivity. Qed.

Lemma set_input_commute fd n1 v1 n2 v2 :
  n1 <> n2 ->
  set_input (set_input fd n1 v1) n2 v2 = set_input (set_input fd n2 v2) n1 v1.
Proof. intros Hne. destruct fd, n1, n2; try reflexivity; congruence. Qed.

(** X2.  Typing twice into one input keeps the last text only, and typing
    into two different inputs gives the same state in either order. *)
Theorem handleInputChange_last_write_wins (n1 n2 : InputName)
  (v1 v2 : jsstring) (st : State) :
  handleInputChange n1 v2 (handleInputChange n1 v1 st)
    = handleInputChange n1 v2 st /\
  (n1 <> n2 ->
   handleInputChange n2 v2 (handleInputChange n1 v1 st)
     = handleInputChange n1 v1 (handleInputChange n2 v2 st)).
Proof.
  unfold handleInputChange, setFormData. cbn [formData showPreview toasts
    scrolls logged]. split.
  - rewrite set_input_twice. reflexivity.
  - intros Hne. rewrite (set_input_commute _ n1 v1 n2 v2 Hne). reflexivity.
Qed.

Lemma checks_set_input fd name value :
  validated_input name = false ->
  checks (set_input fd name value) = checks fd.
Proof. intros H. destruct fd, name; try discriminate; reflexivity. Qed.

Lemma checks_set_radio fd name value :
  checks (set_radio fd name value) = checks fd.
Proof. destruct fd, name; reflexivity. Qed.

Lemma checks_set_amenities fd a : checks (set_amenities fd a) = checks fd.
Proof. destruct fd; reflexivity. Qed.

Lemma validateForm_verdict st :
  fst (validateForm st) =
  match first_failing (checks (formData st)) with
  | Some _ => false
  | None => true
  end.
Proof. rewrite validateForm_checks. destruct (first_failing _); reflexivity. Qed.

(** X3.  Validation looks at the five required inputs, the prices and the
    images only: typing into any other input, choosing a radio option
    or toggling an amenity changes neither its verdict nor the message
    it would show. *)
Theorem validation_ignores_other_fields (ev : Event) (st : State) :
  match ev with
  | InputChange name _ => validated_input name = false
  | RadioChange _ _ | CheckboxChange _ => True
  | _ => False
  end ->
  checks (formData (dispatch ev st)) = checks (formData st) /\
  fst (validateForm (dispatch ev st)) = fst (validateForm st) /\
  (forall shown,
     toasts (snd (validateForm (dispatch ev st)))
       = toasts (dispatch ev st) ++ shown <->
     toasts (snd (validateForm st)) = toasts st ++ shown).
Proof.
  intros Hev.
  assert (checks (formData (dispatch ev st)) = checks (formData st)) as Hc.
  { destruct ev as [n v | n v | n | k v | fl | | |]; try contradiction;
      simpl.
    - apply checks_set_input. exact Hev.
    - apply checks_set_radio.
    - apply checks_set_amenities. }
  split; [exact Hc |]. split.
  - rewrite !validateForm_verdict, Hc. reflexivity.
  - intros shown.
    assert (forall s0,
              toasts (snd (validateForm s0)) = toasts s0 ++ shown <->
              shown = match first_failing (checks (formData s0)) with
                      | Some msg => [validationError msg]
                      | None => []
                      end) as Hshown.
    { intros s0. rewrite validateForm_checks.
      destruct (first_failing (checks (formData s0))) as [msg |]; simpl.
      - split; [intros H; apply app_inv_head in H; auto | intros ->; auto].
      - split; [| intros ->; symmetry; apply app_nil_r].
        intros H. rewrite <- (app_nil_r (toasts s0)) in H at 1.
        apply app_inv_head in H. auto. }
    rewrite !Hshown, Hc. reflexivity.
Qed.

(** The theorem applied to choosing "gents" on the default form. *)
Lemma validation_ignores_other_fields_witness :
  True /\
  checks (formData (dispatch (RadioChange NpgType (js "gents")) initialState))
    = checks (formData initialState) /\
  fst (validateForm (dispatch (RadioChange NpgType (js "gents")) initialState))
    = fst (validateForm initialState) /\
  (forall shown,
     toasts (snd (validateForm
                    (dispatch (RadioChange NpgType (js "gents")) initialState)))
       = toasts (dispatch (RadioChange NpgType (js "gents")) initialState)
           ++ shown <->
     toasts (snd (validateForm initialState))
       = toasts initialState ++ shown).
Proof.
  split; [exact I |].
  apply (validation_ignores_other_fields
           (RadioChange NpgType (js "gents")) initialState I).
Defined.

Lemma read_set_radio_same fd name value :
  read_radio (set_radio fd name value) name = value.
Proof. destruct fd, name; reflexivity. Qed.

Lemma read_set_radio_other fd name value other :
  other <> name ->
  read_radio (set_radio fd name value) other = read_radio fd other.
Proof. intros H. destruct fd, name, other; try reflexivity; congruence. Qed.

Lemma set_radio_frame fd name value :
  (forall n, read_input (set_radio fd name value) n = read_input fd n) /\
  sharingPrices (set_radio fd name value) = sharingPrices fd /\
  amenities (set_radio fd name value) = amenities fd /\
  images (set_radio fd name value) = images fd.
Proof.
  destruct fd, name; repeat split; intros n; destruct n; reflexivity.
Qed.

(** X4.  A radio group shows the option chosen, and choosing changes no
    other group, input, price, amenity or image, nor the mode or any
    effect. *)
Theorem handleRadioChange_writes_one_field (name : RadioName)
  (value : jsstring) (st : State) :
  read_radio (formData (handleRadioChange name value st)) name = value /\
  (forall other, other <> name ->
     read_radio (formData (handleRadioChange name value st)) other
       = read_radio (formData st) other) /\
  (forall n,
     read_input (formData (handleRadioChange name value st)) n
       = read_input (formData st) n) /\
  sharingPrices (formData (handleRadioChange name value st))
    = sharingPrices (formData st) /\
  amenities (formData (handleRadioChange name value st))
    = amenities (formData st) /\
  images (formData (handleRadioChange name value st)) = images (formData st) /\
  same_outside_record st (handleRadioChange name value st).
Proof.
  unfold handleRadioChange, setFormData. cbn [formData].
  split.
  { apply read_set_radio_same. }
  split.
  { intros other Hne. apply read_set_radio_other. exact Hne. }
  destruct (set_radio_frame (formData st) name value) as (Hr & Hp & Ha & Hi).
  repeat split; assumption.
Qed.

Lemma set_amenities_twice fd a b :
  set_amenities (set_amenities fd a) b = set_amenities fd b.
Proof. destruct fd; reflexivity. Qed.

Lemma set_amenities_same fd : set_amenities fd (amenities fd) = fd.
Proof. destruct fd; reflexivity. Qed.

Lemma amenities_set_amenities fd a : amenities (set_amenities fd a) = a.
Proof. destruct fd; reflexivity. Qed.

Lemma handleCheckboxChange_unfold name st :
  handleCheckboxChange name st =
  mkState
    (set_amenities (formData st)
       (<[name := negb (default (inherited name)
                          (amenities (formData st) !! name))]>
          (amenities (formData st))))
    (showPreview st) (toasts st) (scrolls st) (logged st).
Proof. reflexivity. Qed.

(** X5.  Ticking a checkbox twice brings back the very same state, when the
    record carries that flag; ticking two different checkboxes gives
    the same state in either order. *)
Theorem handleCheckboxChange_twice_and_commute (n1 n2 : string) (st : State) :
  is_Some (amenities (formData st) !! n1) ->
  handleCheckboxChange n1 (handleCheckboxChange n1 st) = st /\
  (n1 <> n2 ->
   handleCheckboxChange n2 (handleCheckboxChange n1 st)
     = handleCheckboxChange n1 (handleCheckboxChange n2 st)).
Proof.
  intros [b Hb]. split.
  - rewrite !handleCheckboxChange_unfold. cbn [formData showPreview toasts
      scrolls logged].
    rewrite amenities_set_amenities, set_amenities_twice.
    rewrite lookup_insert_eq, insert_insert_eq, Hb. simpl.
    rewrite negb_involutive, (insert_id _ _ _ Hb), set_amenities_same.
    destruct st; reflexivity.
  - intros Hne.
    rewrite !handleCheckboxChange_unfold. cbn [formData showPreview toasts
      scrolls logged].
    rewrite !amenities_set_amenities, !set_amenities_twice.
    rewrite lookup_insert_ne by congruence.
    rewrite (lookup_insert_ne _ n2 n1) by congruence.
    rewrite (insert_insert_ne _ n2 n1) by congruence. reflexivity.
Qed.

(** The theorem applied to the default state and the flag [gym]. *)
Lemma handleCheckboxChange_twice_and_commute_witness :
  is_Some (amenities (formData initialState) !! "gym"%string) /\
  handleCheckboxChange "gym" (handleCheckboxChange "gym" initialState)
    = initialState /\
  ("gym"%string <> "ac"%string ->
   handleCheckboxChange "ac" (handleCheckboxChange "gym" initialState)
     = handleCheckboxChange "gym" (handleCheckboxChange "ac" initialState)).
Proof.
  assert (is_Some (amenities (formData initialState) !! "gym"%string)) as H
    by (exists false; reflexivity).
  split; [exact H |].
  apply (handleCheckboxChange_twice_and_commute "gym" "ac" initialState H).
Defined.

End Fields.

(* ===================================================================== *)
(** * Entering prices                                                     *)
(* ===================================================================== *)

Module Prices.
Import JS RegExp PGListingForm Spec Component Validation Handlers Rounding.

Lemma digit_cases c :
  is_digit c = true ->
  (c = 48 \/ c = 49 \/ c = 50 \/ c = 51 \/ c = 52 \/ c = 53 \/ c = 54 \/
   c = 55 \/ c = 56 \/ c = 57)%N.
Proof.
  unfold is_digit. rewrite andb_true_iff, !N.leb_le. lia.
Qed.

Lemma digit_not_space c : is_digit c = true -> is_space c = false.
Proof.
  intros H. apply digit_cases in H.
  repeat (destruct H as [-> | H]; [reflexivity |]). subst. reflexivity.
Qed.

Lemma digit_value_digit c :
  is_digit c = true -> digit_value 10 c = Some (c - 48)%N.
Proof.
  intros H. apply digit_cases in H.
  repeat (destruct H as [-> | H]; [reflexivity |]). subst. reflexivity.
Qed.

Lemma span_digits_all s : forall n acc,
  forallb is_digit s = true ->
  span_digits 10 s n acc =
  ((n + length s)%nat,
   fold_left (fun a c => (a * 10 + (c - 48))%N) s acc, []).
Proof.
  induction s as [| c s IH]; intros n acc H; simpl.
  - rewrite Nat.add_0_r. reflexivity.
  - simpl in H. apply andb_true_iff in H as [Hc Hs].
    rewrite (digit_value_digit c Hc), IH by exact Hs.
    rewrite Nat.add_succ_r. reflexivity.
Qed.

Lemma drop_space_digits s : forallb is_digit s = true -> drop_space s = s.
Proof.
  destruct s as [| c s]; [reflexivity |]. simpl.
  intros H. apply andb_true_iff in H as [Hc _].
  rewrite (digit_not_space c Hc). reflexivity.
Qed.

Lemma forallb_rev_true {A} (f : A -> bool) l :
  forallb f l = true -> forallb f (rev l) = true.
Proof.
  rewrite !forallb_forall. intros H x Hx. apply H, in_rev. exact Hx.
Qed.

Lemma trim_digits s : forallb is_digit s = true -> trim s = s.
Proof.
  intros H. unfold trim. rewrite (drop_space_digits s H).
  rewrite (drop_space_digits (rev s)) by (apply forallb_rev_true; exact H).
  apply rev_involutive.
Qed.

Lemma parse_decimal_digits s :
  s <> [] -> forallb is_digit s = true ->
  parse_decimal false s = of_Z (Z.of_N (digits_value s)).
Proof.
  intros Hne H. unfold parse_decimal.
  case_decide as Hinf; [subst s; discriminate H |]. clear Hinf.
  unfold parse_unsigned_decimal. rewrite (span_digits_all s 0 0 H).
  cbn iota beta. fold (digits_value s).
  destruct s as [| c s']; [congruence |]. cbn [length Nat.add parse_exponent].
  unfold round_decimal, of_Z.
  destruct (digits_value (c :: s')) as [| p]; [reflexivity |].
  cbn [Z.of_nat Z.sub Z.opp Z.add Z.leb Z.compare Z.of_N].
  change (10 ^ 0) with 1. rewrite Z.mul_1_r. reflexivity.
Qed.

(** [Number] on a string of decimal digits. *)
Lemma Number_digits s :
  s <> [] -> forallb is_digit s = true ->
  Number s = of_Z (Z.of_N (digits_value s)).
Proof.
  intros Hne H. unfold Number. rewrite (trim_digits s H).
  rewrite <- (parse_decimal_digits s Hne H).
  destruct s as [| c s']; [congruence |].
  simpl in H. apply andb_true_iff in H as [Hc Hs].
  apply digit_cases in Hc.
  destruct Hc as [-> | Hc].
  - destruct s' as [| c2 r]; [reflexivity |].
    simpl in Hs. apply andb_true_iff in Hs as [Hc2 _].
    apply digit_cases in Hc2.
    repeat (destruct Hc2 as [-> | Hc2]; [reflexivity |]). subst. reflexivity.
  - repeat (destruct Hc as [-> | Hc]; [reflexivity |]). subst. reflexivity.
Qed.

Lemma of_Z_positive v :
  0 < v < 2 ^ 53 -> gt (of_Z v) (S754_zero false) = true.
Proof.
  intros Hv.
  destruct (of_Z_normal v) as (m & e & -> & _); [lia | lia |].
  replace (v <? 0) with false by (symmetry; apply Z.ltb_ge; lia).
  reflexivity.
Qed.

(** X6.  Typing a whole amount into a price box stores exactly that number.
    For a non-empty text of decimal digits, [handleSharingPriceChange]
    stores the double of its value under the key; when the value is
    positive and below 2^53 the stored number denotes it exactly and
    the price rule of the validation holds afterwards; when the value
    is zero the entry does not count as a price. *)
Theorem handleSharingPriceChange_whole_amount (key : string)
  (value : jsstring) (st : State) :
  value <> [] -> forallb is_digit value = true ->
  sharingPrices (formData (handleSharingPriceChange key value st)) !! key
    = Some (Some (of_Z (Z.of_N (digits_value value)))) /\
  (0 < Z.of_N (digits_value value) < 2 ^ 53 ->
   int_value (of_Z (Z.of_N (digits_value value)))
     = Some (Z.of_N (digits_value value)) /\
   hasPrice (formData (handleSharingPriceChange key value st)) = true) /\
  (digits_value value = 0%N ->
   positive_price (Some (of_Z (Z.of_N (digits_value value)))) = false).
Proof.
  intros Hne Hd.
  assert (sharingPrices (formData (handleSharingPriceChange key value st))
            !! key = Some (Some (of_Z (Z.of_N (digits_value value))))) as Hk.
  { rewrite sharingPrices_after, lookup_insert_eq.
    rewrite <- (Number_digits value Hne Hd).
    destruct value; [congruence | reflexivity]. }
  split; [exact Hk |]. split.
  - intros Hv. split.
    + apply int_value_normalize. lia.
    + apply hasPrice_true. eexists _, _. split; [exact Hk |].
      apply of_Z_positive. exact Hv.
  - intros ->. reflexivity.
Qed.

(** The theorem applied to typing "7500" for double occupancy. *)
Lemma handleSharingPriceChange_whole_amount_witness :
  (js "7500" <> [] /\ forallb is_digit (js "7500") = true) /\
  sharingPrices (formData (handleSharingPriceChange "2" (js "7500")
                             initialState)) !! "2"%string
    = Some (Some (of_Z (Z.of_N (digits_value (js "7500"))))).
Proof.
  assert (js "7500" <> []) as H1 by discriminate.
  assert (forallb is_digit (js "7500") = true) as H2 by reflexivity.
  split; [split; assumption |].
  apply (handleSharingPriceChange_whole_amount "2" (js "7500") initialState
           H1 H2).
Defined.

Lemma set_sharingPrices_twice fd a b :
  set_sharingPrices (set_sharingPrices fd a) b = set_sharingPrices fd b.
Proof. destruct fd; reflexivity. Qed.

Lemma set_sharingPrices_same fd : set_sharingPrices fd (sharingPrices fd) = fd.
Proof. destruct fd; reflexivity. Qed.

Lemma sharingPrices_set_sharingPrices fd a :
  sharingPrices (set_sharingPrices fd a) = a.
Proof. destruct fd; reflexivity. Qed.

Lemma handleSharingPriceChange_unfold key value st :
  handleSharingPriceChange key value st =
  mkState
    (set_sharingPrices (formData st)
       (<[key := match value with
                 | [] => None
                 | _ :: _ => Some (Number value)
                 end]> (sharingPrices (formData st))))
    (showPreview st) (toasts st) (scrolls st) (logged st).
Proof. reflexivity. Qed.

(** X7.  Emptying a price box stores [null], whatever was there, so that
    the entry no longer counts as a price; and a box that held [null]
    is back to the very same state once a text typed into it is
    deleted again. *)
Theorem handleSharingPriceChange_clear (key : string) (value : jsstring)
  (st : State) :
  sharingPrices (formData (handleSharingPriceChange key [] st)) !! key
    = Some None /\
  handleSharingPriceChange key []
    (handleSharingPriceChange key value st)
    = handleSharingPriceChange key [] st /\
  (sharingPrices (formData st) !! key = Some None ->
   handleSharingPriceChange key []
     (handleSharingPriceChange key value st) = st).
Proof.
  split; [rewrite sharingPrices_after; apply lookup_insert_eq |].
  assert (handleSharingPriceChange key []
            (handleSharingPriceChange key value st)
          = handleSharingPriceChange key [] st) as Htwice.
  { rewrite !handleSharingPriceChange_unfold.
    cbn [formData showPreview toasts scrolls logged].
    rewrite sharingPrices_set_sharingPrices, set_sharingPrices_twice,
      insert_insert_eq. reflexivity. }
  split; [exact Htwice |].
  intros Hnull. rewrite Htwice, handleSharingPriceChange_unfold.
  rewrite (insert_id _ _ _ Hnull), set_sharingPrices_same.
  destruct st; reflexivity.
Qed.

End Prices.

(* ===================================================================== *)
(** * What holds in every reachable state                                 *)
(* ===================================================================== *)

Module Reach.
Import JS RegExp PGListingForm Spec Component Validation Handlers Sessions.

Lemma validateForm_valid st :
  fst (validateForm st) = true <-> valid (formData st) = true.
Proof. apply validateForm_true. Qed.

Lemma handleSubmit_cases st :
  (valid (formData st) = true /\
   handleSubmit st = scrollTo 0 0 (setShowPreview true st)) \/
  (valid (formData st) = false /\
   exists t, handleSubmit st = toast t st).
Proof.
  pose proof (validateForm_valid st) as Hv.
  unfold handleSubmit. rewrite validateForm_checks in *.
  destruct (first_failing (checks (formData st))) as [msg |]; simpl in *.
  - right. split; [| eauto].
    destruct (valid (formData st)); [| reflexivity].
    destruct Hv as [_ Hv]. specialize (Hv eq_refl). discriminate.
  - left. split; [apply Hv; reflexivity | reflexivity].
Qed.

Lemma handleImageChange_cases files st :
  (count_in_range files = true /\
   handleImageChange files st
     = setFormData (fun prev => set_images prev files) st) \/
  (count_in_range files = false /\
   handleImageChange files st = toast imageUploadError st).
Proof.
  unfold handleImageChange, count_in_range.
  destruct files as [fl |]; [| right; split; reflexivity].
  replace (0 <? length fl)%nat with (1 <=? length fl)%nat
    by (destruct (length fl); reflexivity).
  destruct ((1 <=? length fl)%nat && (length fl <=? 10)%nat);
    [left | right]; split; reflexivity.
Qed.

Lemma set_input_shape fd n v :
  image_count_ok (set_input fd n v) = image_count_ok fd /\
  amenities (set_input fd n v) = amenities fd /\
  sharingPrices (set_input fd n v) = sharingPrices fd.
Proof. destruct fd, n; repeat split; reflexivity. Qed.

Lemma set_radio_shape fd n v :
  image_count_ok (set_radio fd n v) = image_count_ok fd /\
  amenities (set_radio fd n v) = amenities fd /\
  sharingPrices (set_radio fd n v) = sharingPrices fd.
Proof. destruct fd, n; repeat split; reflexivity. Qed.

Lemma set_amenities_shape fd a :
  image_count_ok (set_amenities fd a) = image_count_ok fd /\
  amenities (set_amenities fd a) = a /\
  sharingPrices (set_amenities fd a) = sharingPrices fd.
Proof. destruct fd; repeat split; reflexivity. Qed.

Lemma set_sharingPrices_shape fd p :
  image_count_ok (set_sharingPrices fd p) = image_count_ok fd /\
  amenities (set_sharingPrices fd p) = amenities fd /\
  sharingPrices (set_sharingPrices fd p) = p.
Proof. destruct fd; repeat split; reflexivity. Qed.

Lemma set_images_shape fd i :
  images (set_images fd i) = i /\
  amenities (set_images fd i) = amenities fd /\
  sharingPrices (set_images fd i) = sharingPrices fd.
Proof. destruct fd; repeat split; reflexivity. Qed.

Lemma dom_insert_member {A} (m : gmap string A) k v (l : list string) :
  k ∈ l -> dom m = list_to_set l -> dom (<[k := v]> m) = list_to_set l.
Proof.
  intros Hk Hdom. rewrite dom_insert_L, Hdom.
  assert (k ∈ (list_to_set l : gset string)) as Hin
    by (apply elem_of_list_to_set; exact Hk).
  apply set_eq. intros x. rewrite elem_of_union, elem_of_singleton.
  split; [intros [-> | Hx]; assumption | auto].
Qed.

(** An event of a rendered element keeps the invariant. *)
Lemma dispatch_invariant st ev :
  rendered st ev = true -> invariant st -> invariant (dispatch ev st).
Proof.
  unfold invariant, five_keys.
  intros Hr (Hprev & Himg & Hlog & Ham & Hkeys).
  destruct ev as [n v | n v | n | k v | fl | | |]; unfold rendered in Hr;
    unfold dispatch.
  - apply negb_true_iff in Hr.
    unfold handleInputChange, setFormData. cbn [formData showPreview logged].
    destruct (set_input_shape (formData st) n v) as (-> & -> & ->).
    rewrite Hr. repeat split; try assumption; discriminate.
  - apply negb_true_iff in Hr.
    unfold handleRadioChange, setFormData. cbn [formData showPreview logged].
    destruct (set_radio_shape (formData st) n v) as (-> & -> & ->).
    rewrite Hr. repeat split; try assumption; discriminate.
  - apply andb_true_iff in Hr as [Hr Hn]. apply negb_true_iff in Hr.
    apply bool_decide_eq_true in Hn.
    unfold handleCheckboxChange, setFormData.
    cbn [formData showPreview logged].
    match goal with
    | |- context [set_amenities ?f ?p] =>
        destruct (set_amenities_shape f p) as (-> & -> & ->)
    end.
    rewrite Hr. repeat split; try assumption; try discriminate.
    apply dom_insert_member; assumption.
  - apply andb_true_iff in Hr as [Hr Hk]. apply negb_true_iff in Hr.
    apply bool_decide_eq_true in Hk.
    unfold handleSharingPriceChange, setFormData.
    cbn [formData showPreview logged].
    match goal with
    | |- context [set_sharingPrices ?f ?p] =>
        destruct (set_sharingPrices_shape f p) as (-> & -> & ->)
    end.
    rewrite Hr. repeat split; try assumption; try discriminate.
    apply dom_insert_member; assumption.
  - apply negb_true_iff in Hr.
    destruct (handleImageChange_cases fl st) as [[Hc ->] | [Hc ->]].
    + unfold setFormData. cbn [formData showPreview logged].
      unfold image_count_ok.
      destruct (set_images_shape (formData st) fl) as (-> & -> & ->).
      rewrite Hr. repeat split; try assumption; try discriminate.
      unfold count_in_range in Hc. destruct fl; [exact Hc | reflexivity].
    + unfold toast. cbn [formData showPreview logged].
      rewrite Hr. repeat split; try assumption; discriminate.
  - apply negb_true_iff in Hr.
    destruct (handleSubmit_cases st) as [[Hv ->] | [Hv [t ->]]];
      unfold scrollTo, setShowPreview, toast;
      cbn [formData showPreview logged].
    + split; [intros _; exact Hv |]. repeat split; assumption.
    + rewrite Hr. repeat split; try assumption; discriminate.
  - unfold setShowPreview. cbn [formData showPreview logged].
    repeat split; try assumption; discriminate.
  - unfold handlePost, console_log, toast.
    cbn [formData showPreview logged].
    repeat split; try assumption.
    apply Forall_app. split; [exact Hlog |].
    constructor; [apply Hprev; exact Hr | constructor].
Qed.

Lemma reachable_invariant st : Reachable st -> invariant st.
Proof.
  induction 1 as [| st ev _ IH Hr].
  - unfold invariant. split; [discriminate |].
    split; [reflexivity |]. split; [constructor |].
    split; [| apply initial_prices].
    unfold initialState, initialFormData. cbn [formData amenities].
    rewrite dom_list_to_map_L. f_equal.
  - apply dispatch_invariant; assumption.
Qed.

Lemma reachable_run evs : forall st,
  Reachable st -> rendered_all st evs = true -> Reachable (run evs st).
Proof.
  induction evs as [| ev evs IH]; intros st Hst Hr; simpl in *.
  - exact Hst.
  - apply andb_true_iff in Hr as [Hev Hrest].
    apply IH; [apply reach_event; assumption | exact Hrest].
Qed.

Lemma filled_in_reachable : Reachable (run filled_in initialState).
Proof.
  apply reachable_run; [apply reach_initial | vm_compute; reflexivity].
Qed.

Lemma valid_rules fd :
  valid fd = true <->
  rule1 fd = true /\ rule2 fd = true /\ rule3 fd = true /\
  rule4 fd = true /\ rule5 fd = true.
Proof. unfold valid. rewrite !andb_true_iff. tauto. Qed.

(** X8.  The preview is only ever shown for a record that passes all five
    validation rules: whatever the user does, while the component is
    previewing the required fields are filled, the mobile number and
    the email are well formed, a price is positive and an image is
    present. *)
Theorem preview_shows_valid_record (st : State) :
  Reachable st -> showPreview st = true ->
  rule1 (formData st) = true /\ rule2 (formData st) = true /\
  rule3 (formData st) = true /\ rule4 (formData st) = true /\
  rule5 (formData st) = true.
Proof.
  intros Hr Hp. apply valid_rules.
  apply (reachable_invariant st Hr). exact Hp.
Qed.

(** The theorem applied to the form filled in and submitted. *)
Lemma preview_shows_valid_record_witness :
  (Reachable (run filled_in initialState) /\
   showPreview (run filled_in initialState) = true) /\
  rule1 (formData (run filled_in initialState)) = true /\
  rule2 (formData (run filled_in initialState)) = true /\
  rule3 (formData (run filled_in initialState)) = true /\
  rule4 (formData (run filled_in initialState)) = true /\
  rule5 (formData (run filled_in initialState)) = true.
Proof.
  assert (showPreview (run filled_in initialState) = true) as Hp
    by (vm_compute; reflexivity).
  split; [split; [exact filled_in_reachable | exact Hp] |].
  apply (preview_shows_valid_record (run filled_in initialState)
           filled_in_reachable Hp).
Defined.

(** X9.  Every record handed to [console.log] by "Post PG Listing" passed the
    validation: an invalid listing is never posted. *)
Theorem posted_records_are_valid (st : State) :
  Reachable st -> Forall (fun fd => valid fd = true) (logged st).
Proof. intros Hr. apply (reachable_invariant st Hr). Qed.

(** The theorem applied to the form filled in, submitted and posted. *)
Lemma posted_records_are_valid_witness :
  Reachable (run (filled_in ++ [Post]) initialState) /\
  Forall (fun fd => valid fd = true)
    (logged (run (filled_in ++ [Post]) initialState)).
Proof.
  assert (Reachable (run (filled_in ++ [Post]) initialState)) as Hr
    by (apply reachable_run; [apply reach_initial | vm_compute; reflexivity]).
  split; [exact Hr |].
  apply (posted_records_are_valid _ Hr).
Defined.

(** X10.  The stored images are never more than ten and never an empty
    selection, and [amenities] keeps exactly its ten flags. *)
Theorem images_bounded_amenities_keyed (st : State) :
  Reachable st ->
  match images (formData st) with
  | Some fl => (1 <= length fl <= 10)%nat
  | None => True
  end /\
  dom (amenities (formData st)) = list_to_set amenity_names.
Proof.
  intros Hr. destruct (reachable_invariant st Hr) as (_ & Hi & _ & Ha & _).
  split; [| exact Ha].
  unfold image_count_ok in Hi. destruct (images (formData st)) as [fl |];
    [| exact I].
  apply andb_true_iff in Hi as [H1 H2].
  apply Nat.leb_le in H1, H2. lia.
Qed.

(** The theorem applied to the form filled in and submitted. *)
Lemma images_bounded_amenities_keyed_witness :
  Reachable (run filled_in initialState) /\
  match images (formData (run filled_in initialState)) with
  | Some fl => (1 <= length fl <= 10)%nat
  | None => True
  end /\
  dom (amenities (formData (run filled_in initialState)))
    = list_to_set amenity_names.
Proof.
  split; [exact filled_in_reachable |].
  apply (images_bounded_amenities_keyed _ filled_in_reachable).
Defined.

(** X11.  Going back to the form and submitting again, without touching a
    field, returns to the preview of the very same record and shows no
    error: the only trace is one more scroll to the top. *)
Theorem edit_then_submit_returns (st : State) :
  Reachable st -> showPreview st = true ->
  dispatch Submit (dispatch EditDetails st) = scrollTo 0 0 st.
Proof.
  intros Hr Hp. simpl.
  destruct (handleSubmit_cases (setShowPreview false st))
    as [[Hv ->] | [Hv _]].
  - destruct st as [fd sp ts sc lg]. simpl in Hp. subst sp. reflexivity.
  - simpl in Hv. rewrite (proj1 (reachable_invariant st Hr) Hp) in Hv.
    discriminate.
Qed.

(** The theorem applied to the form filled in and submitted. *)
Lemma edit_then_submit_returns_witness :
  (Reachable (run filled_in initialState) /\
   showPreview (run filled_in initialState) = true) /\
  dispatch Submit (dispatch EditDetails (run filled_in initialState))
    = scrollTo 0 0 (run filled_in initialState).
Proof.
  assert (showPreview (run filled_in initialState) = true) as Hp
    by (vm_compute; reflexivity).
  split; [split; [exact filled_in_reachable | exact Hp] |].
  apply (edit_then_submit_returns _ filled_in_reachable Hp).
Defined.

End Reach.

(* ===================================================================== *)
(** * The lists of the preview                                            *)
(* ===================================================================== *)

Module PreviewLists.
Import JS RegExp PGListingForm Spec Component Validation Handlers Reach.

Lemma price_card_some k v c :
  price_card (k, v) = Some c <->
  v = Some (card_amount c) /\ gt (card_amount c) (S754_zero false) = true /\
  card_key c = k /\
  card_title c
    = (if String.eqb k "1" then "Single" else k ++ " Sharing")%string.
Proof.
  unfold price_card. destruct c as [ck ct ca]. simpl. split.
  - destruct v as [p |]; [| discriminate].
    destruct (gt p (S754_zero false)) eqn:Hp; [| discriminate].
    intros [= <- <- <-]. auto.
  - intros (-> & Hp & <- & ->). rewrite Hp. reflexivity.
Qed.

Lemma priceCards_elem fd (c : PriceCard) :
  c ∈ priceCards fd <->
  sharingPrices fd !! card_key c = Some (Some (card_amount c)) /\
  gt (card_amount c) (S754_zero false) = true /\
  card_title c
    = (if String.eqb (card_key c) "1" then "Single"
       else card_key c ++ " Sharing")%string.
Proof.
  unfold priceCards, Object_entries.
  rewrite list_elem_of_omap. split.
  - intros ([k v] & Hin & Hc). apply elem_of_map_to_list in Hin.
    apply price_card_some in Hc as (-> & Hp & <- & Ht). auto.
  - intros (Hk & Hp & Ht).
    exists (card_key c, Some (card_amount c)).
    split; [apply elem_of_map_to_list; exact Hk |].
    apply price_card_some. auto.
Qed.

Lemma priceCards_keys_NoDup fd : NoDup (card_key <$> priceCards fd).
Proof.
  unfold priceCards, Object_entries.
  pose proof (NoDup_fst_map_to_list (sharingPrices fd)) as Hnd.
  induction (map_to_list (sharingPrices fd)) as [| [k v] l IH].
  - constructor.
  - change ((((k, v) :: l).*1)) with (k :: l.*1) in Hnd.
    apply NoDup_cons in Hnd as [Hk Hnd].
    replace (omap price_card ((k, v) :: l))
      with (match price_card (k, v) with
            | Some y => y :: omap price_card l
            | None => omap price_card l
            end) by reflexivity.
    destruct (price_card (k, v)) as [c |] eqn:Hc; [| apply IH; exact Hnd].
    rewrite fmap_cons. apply NoDup_cons. split; [| apply IH; exact Hnd].
    apply price_card_some in Hc as (_ & _ & -> & _).
    intros Hin. apply Hk.
    apply list_elem_of_fmap in Hin as (c' & -> & Hc').
    apply list_elem_of_omap in Hc' as ([k' v'] & Hin' & Hc').
    apply price_card_some in Hc' as (_ & _ & <- & _).
    apply list_elem_of_fmap. exists (card_key c', v'). auto.
Qed.

Lemma priceCards_nil fd : priceCards fd = [] <-> hasPrice fd = false.
Proof.
  rewrite <- not_true_iff_false, hasPrice_true. split.
  - intros Hnil (k & p & Hk & Hp).
    assert (mkPriceCard k
              (if String.eqb k "1" then "Single" else k ++ " Sharing")%string
              p ∈ priceCards fd) as Hin
      by (apply priceCards_elem; simpl; auto).
    rewrite Hnil in Hin. apply not_elem_of_nil in Hin. exact Hin.
  - intros Hno. destruct (priceCards fd) as [| c l] eqn:E; [reflexivity |].
    exfalso. apply Hno.
    assert (c ∈ priceCards fd) as Hin by (rewrite E; apply list_elem_of_here).
    apply priceCards_elem in Hin as (Hk & Hp & _). eauto.
Qed.

(** X12.  The "Monthly Rent" grid shows a card exactly for the entries that
    the validation counts as prices: a card with key [k] and amount
    [v] is shown if and only if [sharingPrices[k]] is the number [v]
    and [v > 0]; it is titled "Single" for key "1" and "<k> Sharing"
    otherwise; no key gets two cards; and the grid is empty exactly
    when the price rule fails. *)
Theorem priceCards_are_the_positive_prices (fd : FormData) :
  (forall c : PriceCard,
     c ∈ priceCards fd <->
     sharingPrices fd !! card_key c = Some (Some (card_amount c)) /\
     gt (card_amount c) (S754_zero false) = true /\
     card_title c
       = (if String.eqb (card_key c) "1" then "Single"
          else card_key c ++ " Sharing")%string) /\
  NoDup (card_key <$> priceCards fd) /\
  (priceCards fd = [] <-> hasPrice fd = false).
Proof.
  split; [apply priceCards_elem |].
  split; [apply priceCards_keys_NoDup | apply priceCards_nil].
Qed.

Lemma imap_fst {A} (l : list A) :
  (imap (fun index image => (image, (index + 1)%nat)) l).*1 = l.
Proof.
  apply list_eq. intros i.
  rewrite list_lookup_fmap, list_lookup_imap.
  destruct (l !! i); reflexivity.
Qed.

Lemma imap_snd {A} (l : list A) :
  (imap (fun index image => (image, (index + 1)%nat)) l).*2
  = seq 1 (length l).
Proof.
  apply list_eq. intros i.
  rewrite list_lookup_fmap, list_lookup_imap.
  destruct (l !! i) as [x |] eqn:E; simpl.
  - symmetry. apply lookup_seq. split; [lia |].
    apply lookup_lt_Some in E. exact E.
  - symmetry. apply lookup_seq_ge. apply lookup_ge_None in E. exact E.
Qed.

(** X13.  The cap [slice(0, 10)] of the preview never hides an image: in
    every reachable state the preview shows all stored images, in
    their order, numbered from 1; and while previewing there is at
    least one image and at least one price card to show. *)
Theorem preview_shows_every_image (st : State) :
  Reachable st ->
  (forall fl, images (formData st) = Some fl ->
     (previewImages (formData st)).*1 = fl /\
     (previewImages (formData st)).*2 = seq 1 (length fl)) /\
  (showPreview st = true ->
   previewImages (formData st) <> [] /\ priceCards (formData st) <> []).
Proof.
  intros Hr.
  destruct (reachable_invariant st Hr) as (Hprev & Hi & _).
  assert (forall fl, images (formData st) = Some fl ->
            previewImages (formData st)
            = imap (fun index image => (image, (index + 1)%nat)) fl) as Hall.
  { intros fl Hfl. unfold previewImages, image_count_ok in *.
    rewrite Hfl in *. apply andb_true_iff in Hi as [_ H10].
    apply Nat.leb_le in H10. rewrite firstn_all2 by exact H10. reflexivity. }
  split.
  - intros fl Hfl. rewrite (Hall fl Hfl), imap_fst, imap_snd. auto.
  - intros Hp. specialize (Hprev Hp).
    apply valid_rules in Hprev as (_ & _ & _ & H4 & H5). split.
    + unfold rule5, no_images in H5.
      destruct (images (formData st)) as [fl |] eqn:Hfl; [| discriminate].
      rewrite (Hall fl eq_refl). destruct fl; [discriminate | discriminate].
    + intros Hnil. apply priceCards_nil in Hnil.
      unfold rule4 in H4. congruence.
Qed.

(** The theorem applied to the form filled in and submitted. *)
Lemma preview_shows_every_image_witness :
  Reachable (run filled_in initialState) /\
  (showPreview (run filled_in initialState) = true ->
   previewImages (formData (run filled_in initialState)) <> [] /\
   priceCards (formData (run filled_in initialState)) <> []).
Proof.
  split; [exact filled_in_reachable |].
  apply (preview_shows_every_image _ filled_in_reachable).
Defined.

End PreviewLists.

(* ===================================================================== *)
(** * Labels made from field names                                        *)
(* ===================================================================== *)

Module Labels.
Import JS RegExp PGListingForm Spec Component Reach.

Lemma lower_letter a :
  is_lower a = true ->
  is_upper a = false /\
  Ascii.eqb (ascii_of_N (N_of_ascii a - 32)) " " = false /\
  is_upper (ascii_of_N (N_of_ascii a - 32)) = true /\
  ascii_of_N (N_of_ascii (ascii_of_N (N_of_ascii a - 32)) + 32) = a.
Proof.
  destruct a as [[] [] [] [] [] [] [] []]; try discriminate;
    intros _; repeat split; reflexivity.
Qed.

Lemma drop_spaces_space_capitals s :
  no_space s = true -> drop_spaces (space_capitals s) = s.
Proof.
  induction s as [| a s IH]; simpl; [reflexivity |].
  intros H. apply andb_true_iff in H as [Ha Hs].
  apply negb_true_iff in Ha.
  destruct (is_upper a); simpl; rewrite Ha, (IH Hs); reflexivity.
Qed.

Lemma field_label_undone s :
  camel_case s = true -> uncapitalize (drop_spaces (field_label s)) = s.
Proof.
  destruct s as [| a s]; [discriminate |].
  unfold camel_case. intros H. apply andb_true_iff in H as [Ha Hs].
  simpl in Hs. apply andb_true_iff in Hs as [_ Hs].
  destruct (lower_letter a Ha) as (Hu & Hsp & Hup & Hback).
  unfold field_label. simpl space_capitals. rewrite Hu.
  simpl capitalize. rewrite Ha. simpl drop_spaces. rewrite Hsp.
  rewrite (drop_spaces_space_capitals s Hs).
  simpl uncapitalize. rewrite Hup, Hback. reflexivity.
Qed.

(** X14.  The label made from a camel-case name can be turned back into the
    name (drop the spaces, lower the first letter), so two different
    field or amenity names never get the same label. *)
Theorem field_label_round_trip (s1 s2 : string) :
  camel_case s1 = true -> camel_case s2 = true ->
  uncapitalize (drop_spaces (field_label s1)) = s1 /\
  (field_label s1 = field_label s2 -> s1 = s2).
Proof.
  intros H1 H2. split; [apply field_label_undone; exact H1 |].
  intros E. rewrite <- (field_label_undone s1 H1), <- (field_label_undone s2 H2).
  rewrite E. reflexivity.
Qed.

(** The theorem applied to two names of the form. *)
Lemma field_label_round_trip_witness :
  (camel_case "washingMachine" = true /\ camel_case "roWater" = true) /\
  uncapitalize (drop_spaces (field_label "washingMachine"))
    = "washingMachine"%string /\
  (field_label "washingMachine" = field_label "roWater" ->
   "washingMachine"%string = "roWater"%string).
Proof.
  split; [split; reflexivity |].
  apply (field_label_round_trip "washingMachine" "roWater");
    reflexivity.
Defined.

Lemma amenity_names_camel k : k ∈ amenity_names -> camel_case k = true.
Proof.
  intros Hk. apply list_elem_of_In in Hk.
  assert (forallb camel_case amenity_names = true) as H by reflexivity.
  rewrite forallb_forall in H. apply H. exact Hk.
Qed.

Lemma labels_elem (l : list (string * bool)) label :
  label ∈ omap (fun '(key, value) =>
                  if value : bool then Some (field_label key) else None) l <->
  exists key, (key, true) ∈ l /\ label = field_label key.
Proof.
  rewrite list_elem_of_omap. split.
  - intros ([k v] & Hin & Hl). destruct v; [| discriminate].
    injection Hl as <-. eauto.
  - intros (k & Hin & ->). exists (k, true). auto.
Qed.

Lemma labels_NoDup (l : list (string * bool)) :
  NoDup l.*1 ->
  (forall k v, (k, v) ∈ l -> camel_case k = true) ->
  NoDup (omap (fun '(key, value) =>
                 if value : bool then Some (field_label key) else None) l).
Proof.
  induction l as [| [k v] l IH]; intros Hnd Hcamel.
  - constructor.
  - change ((((k, v) :: l).*1)) with (k :: l.*1) in Hnd.
    apply NoDup_cons in Hnd as [Hk Hnd].
    assert (forall k' v', (k', v') ∈ l -> camel_case k' = true) as Hcamel'
      by (intros k' v' Hin; apply (Hcamel k' v'); apply list_elem_of_further;
          exact Hin).
    specialize (IH Hnd Hcamel').
    destruct v; [| exact IH].
    change (NoDup (field_label k
                   :: omap (fun '(key, value) =>
                              if value : bool then Some (field_label key)
                              else None) l)).
    apply NoDup_cons. split; [| exact IH].
    intros Hin. apply labels_elem in Hin as (k' & Hin' & E).
    assert (k = k') as <-.
    { assert (camel_case k = true) as Hck
        by (apply (Hcamel k true); apply list_elem_of_here).
      assert (camel_case k' = true) as Hck' by (apply (Hcamel' k' true Hin')).
      rewrite <- (field_label_undone k Hck), <- (field_label_undone k' Hck').
      rewrite E. reflexivity. }
    apply Hk. apply list_elem_of_fmap. exists (k, true). auto.
Qed.

(** X15.  The amenities grid of the preview shows one label for each flag
    that is set and nothing else, and never the same label twice. *)
Theorem amenityLabels_one_per_set_flag (st : State) :
  Reachable st ->
  (forall label,
     label ∈ amenityLabels (formData st) <->
     exists key, key ∈ amenity_names /\
                 amenities (formData st) !! key = Some true /\
                 label = field_label key) /\
  NoDup (amenityLabels (formData st)).
Proof.
  intros Hr.
  destruct (reachable_invariant st Hr) as (_ & _ & _ & Hdom & _).
  assert (forall k v, (k, v) ∈ map_to_list (amenities (formData st)) ->
                      k ∈ amenity_names) as Hkeys.
  { intros k v Hin. apply elem_of_map_to_list in Hin.
    assert (k ∈ dom (amenities (formData st))) as Hd
      by (apply elem_of_dom; eauto).
    rewrite Hdom in Hd. apply elem_of_list_to_set in Hd. exact Hd. }
  unfold amenityLabels, Object_entries. split.
  - intros label. rewrite labels_elem. split.
    + intros (k & Hin & ->). exists k.
      split; [apply (Hkeys k true Hin) |].
      split; [apply elem_of_map_to_list; exact Hin | reflexivity].
    + intros (k & _ & Hk & ->). exists k.
      split; [apply elem_of_map_to_list; exact Hk | reflexivity].
  - apply labels_NoDup; [apply NoDup_fst_map_to_list |].
    intros k v Hin. apply amenity_names_camel, (Hkeys k v Hin).
Qed.

(** The theorem applied to the form filled in and submitted. *)
Lemma amenityLabels_one_per_set_flag_witness :
  Reachable (run filled_in initialState) /\
  NoDup (amenityLabels (formData (run filled_in initialState))).
Proof.
  split; [exact filled_in_reachable |].
  apply (amenityLabels_one_per_set_flag _ filled_in_reachable).
Defined.

End Labels.

(* ===================================================================== *)
(** * The progress tracker on whole steps                                 *)
(* ===================================================================== *)

Module WholeSteps.
Import JS Spec Component ProgressTracker Rounding Tracker.

(** X16.  Within its range the percentage stays between 0 and 100: for whole
    steps with [0 <= currentStep <= totalSteps] the value handed to the
    bar is an integer from 0 to 100, it is 0 at step 0 and 100 at the
    last step. *)
Theorem progress_between_0_and_100 (c t : Z) :
  1 <= t < 2 ^ 53 -> 0 <= c <= t -> c < 2 ^ 42 ->
  exists p,
    int_value (bar_value (render (mkProps (of_Z c) (of_Z t) None None)))
      = Some p /\
    0 <= p <= 100 /\ (c = 0 -> p = 0) /\ (c = t -> p = 100).
Proof.
  intros Ht Hc Hb.
  destruct (progress_nearest c t Ht ltac:(lia)) as (p & Hp & Hnear).
  exists p. split; [exact Hp |].
  assert (- t <= 2 * (p * t) - 200 * c <= t) as Hn by lia.
  assert (0 <= p).
  { destruct (Z.leb_spec 0 p); [assumption |]. exfalso.
    assert (p * t <= (-1) * t) by (apply Z.mul_le_mono_nonneg_r; lia). lia. }
  assert (p <= 100).
  { destruct (Z.leb_spec p 100); [assumption |]. exfalso.
    assert (101 * t <= p * t) by (apply Z.mul_le_mono_nonneg_r; lia). lia. }
  split; [lia |]. split.
  - intros ->. destruct (Z.eq_dec p 0); [assumption |]. exfalso.
    assert (1 * t <= p * t) by (apply Z.mul_le_mono_nonneg_r; lia). lia.
  - intros ->. destruct (Z.eq_dec p 100); [assumption |]. exfalso.
    assert (p * t <= 99 * t) by (apply Z.mul_le_mono_nonneg_r; lia). lia.
Qed.

(** The theorem applied to step 3 of 7. *)
Lemma progress_between_0_and_100_witness :
  (1 <= 7 < 2 ^ 53 /\ 0 <= 3 <= 7 /\ 3 < 2 ^ 42) /\
  exists p,
    int_value (bar_value (render (mkProps (of_Z 3) (of_Z 7) None None)))
      = Some p /\
    0 <= p <= 100 /\ (3 = 0 -> p = 0) /\ (3 = 7 -> p = 100).
Proof.
  split; [lia |].
  apply (progress_between_0_and_100 3 7); lia.
Defined.

(** X17.  The percentage never goes down when the current step goes up: for
    whole steps and one total, a later step shows at least the
    percentage of an earlier one. *)
Theorem progress_monotone (c1 c2 t : Z) :
  1 <= t < 2 ^ 53 -> Z.abs c1 < 2 ^ 42 -> Z.abs c2 < 2 ^ 42 -> c1 <= c2 ->
  exists p1 p2,
    int_value (progress (of_Z c1) (of_Z t)) = Some p1 /\
    int_value (progress (of_Z c2) (of_Z t)) = Some p2 /\
    p1 <= p2.
Proof.
  intros Ht H1 H2 Hle.
  destruct (progress_nearest c1 t Ht H1) as (p1 & Hp1 & Hn1).
  destruct (progress_nearest c2 t Ht H2) as (p2 & Hp2 & Hn2).
  exists p1, p2. split; [exact Hp1 |]. split; [exact Hp2 |].
  destruct (Z.eq_dec c1 c2) as [-> | Hne].
  - rewrite Hp1 in Hp2. injection Hp2 as ->. lia.
  - destruct (Z.leb_spec p1 p2); [assumption |]. exfalso.
    assert ((p2 + 1) * t <= p1 * t) by (apply Z.mul_le_mono_nonneg_r; lia).
    lia.
Qed.

(** The theorem applied to steps 1 and 2 of 3. *)
Lemma progress_monotone_witness :
  (1 <= 3 < 2 ^ 53 /\ Z.abs 1 < 2 ^ 42 /\ Z.abs 2 < 2 ^ 42 /\ 1 <= 2) /\
  exists p1 p2,
    int_value (progress (of_Z 1) (of_Z 3)) = Some p1 /\
    int_value (progress (of_Z 2) (of_Z 3)) = Some p2 /\
    p1 <= p2.
Proof.
  split; [lia |].
  apply (progress_monotone 1 2 3); lia.
Defined.

(** Doubles made of non-negative integers below 2^53 compare as the
    integers do. *)
Lemma SFcompare_of_Z a b :
  0 <= a < 2 ^ 53 -> 0 <= b < 2 ^ 53 ->
  SFcompare (of_Z a) (of_Z b) = Some (a ?= b).
Proof.
  intros Ha Hb.
  destruct (Z.eq_dec a 0) as [-> | Ha0], (Z.eq_dec b 0) as [-> | Hb0].
  - reflexivity.
  - destruct (of_Z_normal b) as (m & e & -> & _); [lia | lia |].
    replace (b <? 0) with false by (symmetry; apply Z.ltb_ge; lia).
    destruct b; [lia | reflexivity | lia].
  - destruct (of_Z_normal a) as (m & e & -> & _); [lia | lia |].
    replace (a <? 0) with false by (symmetry; apply Z.ltb_ge; lia).
    destruct a; [lia | reflexivity | lia].
  - destruct (of_Z_normal a) as (ma & ea & -> & Hma & Hea & Ema);
      [lia | lia |].
    destruct (of_Z_normal b) as (mb & eb & -> & Hmb & Heb & Emb);
      [lia | lia |].
    replace (a <? 0) with false by (symmetry; apply Z.ltb_ge; lia).
    replace (b <? 0) with false by (symmetry; apply Z.ltb_ge; lia).
    rewrite Z.abs_eq in Ema, Emb by lia.
    simpl. f_equal.
    pose proof (pow2_pos (- ea) ltac:(lia)) as Hpa.
    pose proof (pow2_pos (- eb) ltac:(lia)) as Hpb.
    destruct (Z.compare_spec ea eb) as [E | E | E].
    + subst eb. change (Pos.compare_cont Eq ma mb) with (Z.pos ma ?= Z.pos mb).
      rewrite Ema, Emb.
      destruct (Z.compare_spec a b) as [E | E | E].
      * subst b. apply Z.compare_refl.
      * apply Z.compare_lt_iff. apply Z.mul_lt_mono_pos_r; assumption.
      * apply Z.compare_gt_iff. apply Z.mul_lt_mono_pos_r; assumption.
    + symmetry. apply Z.compare_lt_iff.
      assert (2 * 2 ^ (- eb) <= 2 ^ (- ea)) as Hp.
      { replace (- ea) with (- eb + (eb - ea - 1) + 1) by lia.
        rewrite !Z.pow_add_r by lia. change (2 ^ 1) with 2.
        pose proof (pow2_pos (eb - ea - 1) ltac:(lia)). nia. }
      assert (a * (2 * 2 ^ (- eb)) <= a * 2 ^ (- ea)) as H1
        by (apply Z.mul_le_mono_nonneg_l; lia).
      assert (a * 2 ^ (- eb) < b * 2 ^ (- eb)) as H2 by lia.
      apply Z.mul_lt_mono_pos_r in H2; assumption.
    + symmetry. apply Z.compare_gt_iff.
      assert (2 * 2 ^ (- ea) <= 2 ^ (- eb)) as Hp.
      { replace (- eb) with (- ea + (ea - eb - 1) + 1) by lia.
        rewrite !Z.pow_add_r by lia. change (2 ^ 1) with 2.
        pose proof (pow2_pos (ea - eb - 1) ltac:(lia)). nia. }
      assert (b * (2 * 2 ^ (- ea)) <= b * 2 ^ (- eb)) as H1
        by (apply Z.mul_le_mono_nonneg_l; lia).
      assert (b * 2 ^ (- ea) < a * 2 ^ (- ea)) as H2 by lia.
      apply Z.mul_lt_mono_pos_r in H2; assumption.
Qed.

Lemma marker_style_whole i k :
  Z.of_nat i < 2 ^ 53 -> Z.of_nat k < 2 ^ 53 ->
  marker_style i (of_Z (Z.of_nat k)) =
  if (i <? k)%nat then Completed
  else if (i =? k)%nat then Current else Pending.
Proof.
  intros Hi Hk. unfold marker_style, lt, strict_eq, SFltb, SFeqb, index_number.
  rewrite SFcompare_of_Z by lia.
  destruct (Z.compare_spec (Z.of_nat i) (Z.of_nat k)) as [E | E | E].
  - apply Nat2Z.inj in E. subst k.
    rewrite Nat.ltb_irrefl, Nat.eqb_refl. reflexivity.
  - replace (i <? k)%nat with true by (symmetry; apply Nat.ltb_lt; lia).
    reflexivity.
  - replace (i <? k)%nat with false by (symmetry; apply Nat.ltb_ge; lia).
    replace (i =? k)%nat with false by (symmetry; apply Nat.eqb_neq; lia).
    reflexivity.
Qed.

Lemma circles_spec_length k n : length (circles_spec k n) = n.
Proof.
  unfold circles_spec. rewrite length_app, length_replicate.
  destruct (Nat.ltb_spec k n); simpl; rewrite ?length_replicate; lia.
Qed.

Lemma circles_spec_lookup k n i :
  (i < n)%nat ->
  circles_spec k n !! i =
  Some (if (i <? k)%nat then Completed
        else if (i =? k)%nat then Current else Pending).
Proof.
  intros Hi. unfold circles_spec.
  destruct (Nat.ltb_spec i k) as [Hik | Hik].
  - rewrite lookup_app_l by (rewrite length_replicate; lia).
    apply lookup_replicate_2. lia.
  - rewrite lookup_app_r by (rewrite length_replicate; lia).
    rewrite length_replicate.
    replace (k <? n)%nat with true by (symmetry; apply Nat.ltb_lt; lia).
    replace (Nat.min k n) with k by lia.
    destruct (Nat.eqb_spec i k) as [-> | Hne].
    + rewrite Nat.sub_diag. reflexivity.
    + destruct (i - k)%nat as [| j] eqn:E; [lia |]. simpl.
      apply lookup_replicate_2. lia.
Qed.

(** X18.  With labels and a whole current step [k], the circles are styled
    completed for the first [k] labels, current for the label at
    position [k] if there is one, and pending after it; the circles
    are numbered from 1 and carry the labels in order. *)
Theorem markers_of_whole_step (k : nat) (t : number)
  (labels : list string) (cls : option string) :
  labels <> [] -> Z.of_nat k < 2 ^ 53 -> Z.of_nat (length labels) < 2 ^ 53 ->
  exists ms,
    header (render (mkProps (of_Z (Z.of_nat k)) t (Some labels) cls))
      = Markers ms /\
    circle <$> ms = circles_spec k (length labels) /\
    circle_text <$> ms = seq 1 (length labels) /\
    label_text <$> ms = labels.
Proof.
  intros Hne Hk Hn.
  exists (imap (render_marker (of_Z (Z.of_nat k))) labels).
  split.
  { rewrite render_header. simpl. destruct labels; [congruence | reflexivity]. }
  split; [| split].
  - apply (list_eq_same_length _ _ (length labels)).
    + apply circles_spec_length.
    + rewrite length_fmap, length_imap. reflexivity.
    + intros i x y Hi Hx Hy.
      rewrite list_lookup_fmap, list_lookup_imap in Hx.
      rewrite circles_spec_lookup in Hy by exact Hi.
      destruct (labels !! i) as [l |]; [| discriminate].
      simpl in Hx. injection Hx as <-. injection Hy as <-.
      apply marker_style_whole; lia.
  - apply list_eq. intros i.
    rewrite list_lookup_fmap, list_lookup_imap.
    destruct (labels !! i) as [l |] eqn:E; simpl.
    + symmetry. apply lookup_seq. split; [lia |].
      apply lookup_lt_Some in E. exact E.
    + symmetry. apply lookup_seq_ge. apply lookup_ge_None in E. exact E.
  - apply list_eq. intros i.
    rewrite list_lookup_fmap, list_lookup_imap.
    destruct (labels !! i); reflexivity.
Qed.

(** The theorem applied to step 2 with four labels. *)
Lemma markers_of_whole_step_witness :
  (["A"; "B"; "C"; "D"]%string <> [] /\ Z.of_nat 2 < 2 ^ 53 /\
   Z.of_nat (length ["A"; "B"; "C"; "D"]%string) < 2 ^ 53) /\
  exists ms,
    header (render (mkProps (of_Z (Z.of_nat 2)) (of_Z 4)
                      (Some ["A"; "B"; "C"; "D"]%string) None))
      = Markers ms /\
    circle <$> ms = circles_spec 2 (length ["A"; "B"; "C"; "D"]%string) /\
    circle_text <$> ms = seq 1 (length ["A"; "B"; "C"; "D"]%string) /\
    label_text <$> ms = ["A"; "B"; "C"; "D"]%string.
Proof.
  assert (["A"; "B"; "C"; "D"]%string <> []) as H1 by discriminate.
  assert (Z.of_nat 2 < 2 ^ 53) as H2 by reflexivity.
  assert (Z.of_nat (length ["A"; "B"; "C"; "D"]%string) < 2 ^ 53) as H3
    by reflexivity.
  split; [auto |].
  apply (markers_of_whole_step 2 (of_Z 4) ["A"; "B"; "C"; "D"]%string None
           H1 H2 H3).
Defined.

End WholeSteps.

(* ===================================================================== *)
(** * What events change, and what they leave behind                      *)
(* ===================================================================== *)

Module Effects.
Import JS RegExp PGListingForm Spec Component Validation Handlers Reach.

Lemma handleImageChange_mode files st :
  showPreview (handleImageChange files st) = showPreview st.
Proof.
  destruct (handleImageChange_cases files st) as [[_ ->] | [_ ->]];
    reflexivity.
Qed.

(** X19.  Only the five change handlers touch the record, and only "Preview"
    and "Edit Listing" touch the mode: an event that changes the record
    is a change of an input, a radio group, a checkbox, a price or the
    images; an event that changes the mode is a submission of a valid
    record or the edit button.  In particular posting changes
    neither, and a failed submission changes neither. *)
Theorem record_and_mode_changes (ev : Event) (st : State) :
  (formData (dispatch ev st) <> formData st ->
   match ev with
   | Submit | EditDetails | Post => False
   | _ => True
   end) /\
  (showPreview (dispatch ev st) <> showPreview st ->
   match ev with
   | Submit => valid (formData st) = true /\ showPreview st = false
   | EditDetails => showPreview st = true
   | _ => False
   end).
Proof.
  split.
  - destruct ev as [n v | n v | n | k v | fl | | |]; try (intros _; exact I);
      intros H; apply H; first [apply handleSubmit_record | reflexivity].
  - destruct ev as [n v | n v | n | k v | fl | | |]; intros H;
      try (apply H; reflexivity).
    + apply H. simpl. apply handleImageChange_mode.
    + simpl in H.
      destruct (handleSubmit_cases st) as [[Hv E] | [Hv [t E]]];
        rewrite E in H; simpl in H.
      * split; [exact Hv |]. destruct (showPreview st); congruence.
      * congruence.
    + simpl in H. destruct (showPreview st); congruence.
Qed.

Lemma dispatch_effects ev st :
  exists ts sc,
    toasts (dispatch ev st) = toasts st ++ ts /\ (length ts <= 1)%nat /\
    scrolls (dispatch ev st) = scrolls st ++ sc /\
    Forall (fun xy => xy = (0, 0)) sc /\
    logged (dispatch ev st)
      = logged st ++ (if is_post ev then [formData st] else []).
Proof.
  destruct ev as [n v | n v | n | k v | fl | | |]; simpl is_post; cbv iota.
  - exists [], []. simpl. rewrite !app_nil_r.
    repeat split; simpl; try lia; constructor.
  - exists [], []. simpl. rewrite !app_nil_r.
    repeat split; simpl; try lia; constructor.
  - exists [], []. simpl. rewrite !app_nil_r.
    repeat split; simpl; try lia; constructor.
  - exists [], []. simpl. rewrite !app_nil_r.
    repeat split; simpl; try lia; constructor.
  - simpl. destruct (handleImageChange_cases fl st) as [[_ ->] | [_ ->]].
    + exists [], []. simpl. rewrite !app_nil_r.
      repeat split; simpl; try lia; constructor.
    + exists [imageUploadError], []. simpl. rewrite !app_nil_r.
      repeat split; simpl; try lia; constructor.
  - simpl. destruct (handleSubmit_cases st) as [[_ ->] | [_ [t ->]]].
    + exists [], [(0, 0)]. simpl. rewrite !app_nil_r.
      repeat split; simpl; try lia; repeat constructor.
    + exists [t], []. simpl. rewrite !app_nil_r.
      repeat split; simpl; try lia; constructor.
  - exists [], []. simpl. rewrite !app_nil_r.
    repeat split; simpl; try lia; constructor.
  - exists [postSuccess], []. simpl. rewrite !app_nil_r.
    repeat split; simpl; try lia; constructor.
Qed.

(** X20.  Notifications, scroll requests and logged payloads are only ever
    appended: over any sequence of events the earlier ones stay in
    place, at most one notification is shown per event, every scroll
    goes to the top, and exactly one payload is logged per "Post". *)
Theorem effects_are_appended (evs : list Event) (st : State) :
  exists ts sc lg,
    toasts (run evs st) = toasts st ++ ts /\
    (length ts <= length evs)%nat /\
    scrolls (run evs st) = scrolls st ++ sc /\
    Forall (fun xy => xy = (0, 0)) sc /\
    logged (run evs st) = logged st ++ lg /\
    length lg = length (filter (fun ev => is_post ev = true) evs).
Proof.
  revert st. induction evs as [| ev evs IH]; intros st.
  - exists [], [], []. simpl. rewrite !app_nil_r.
    repeat split; simpl; try lia; constructor.
  - destruct (dispatch_effects ev st) as (ts1 & sc1 & Ht1 & Hl1 & Hs1 & Hf1 & Hg1).
    destruct (IH (dispatch ev st)) as (ts2 & sc2 & lg2 & Ht2 & Hl2 & Hs2 & Hf2 & Hg2 & Hn2).
    exists (ts1 ++ ts2), (sc1 ++ sc2),
      ((if is_post ev then [formData st] else []) ++ lg2).
    simpl run. rewrite Ht2, Hs2, Hg2, Ht1, Hs1, Hg1, <- !app_assoc.
    split; [reflexivity |].
    split; [rewrite length_app; simpl; lia |].
    split; [reflexivity |].
    split; [apply Forall_app; auto |].
    split; [reflexivity |].
    rewrite length_app, Hn2.
    destruct (is_post ev) eqn:Ep.
    + rewrite filter_cons_True by exact Ep. reflexivity.
    + rewrite filter_cons_False by congruence. reflexivity.
Qed.

End Effects.
